(** * Smoke-test fixtures of the OSF UI test suite (base.py)

    A shallow embedding of the fixture classes [SmokeTest],
    [UserSmokeTest] and [ProjectSmokeTest]: their layered
    [setUp]/[tearDown], the element wait [get_element], the navigation
    helper [goto] and the activity-log reader [get_log]. *)

From Stdlib Require Import String Ascii List Arith Bool Lia.
Import ListNotations.
Open Scope string_scope.
Open Scope nat_scope.

(** ** Python values and exceptions *)

(** The exceptions the fixture code can surface.  [WebDriverException]
    stands for any failure signalled by a collaborator of the [util]
    module or by the browser itself. *)
Inductive exn : Type :=
| KeyError (key : string)
| IndexError
| AttributeError (attr : string)
| TypeError
| ValueError
| TimeoutException
| NoSuchElementException
| WebDriverException.

(** A Python call either raises or returns. *)
Definition result (A : Type) : Type := (exn + A)%type.

(** ** The fixture instance and its collaborators *)

(** What [util.create_user] returns: a mapping with these three keys. *)
Record user : Type := {
  username : string;
  password : string;
  fullname : string
}.

(** Keyword arguments for [util.launch_driver]. *)
Record launch_opts : Type := {
  driver_name : option string;
  desired_capabilities : list (string * string)
}.

(** Calls that leave the test process: the [util] collaborators, the
    methods of the WebDriver handle, and the test method itself. *)
Inductive call : Type :=
| Launch (opts : option launch_opts)
| CreateUser
| Login (name pass : string)
| Logout
| CreateProject
| GotoProject
| DeleteProject
| Quit
| Close
| Get (url : string)
| TestMethod.

(** A call together with whether it returned normally. *)
Definition event : Type := (call * bool)%type.

(** The attributes of a test instance.  An attribute that was never
    assigned is [None]; reading it raises [AttributeError].  [journal]
    is the history of outside calls, oldest first. *)
Record instance : Type := {
  driver_opts : option launch_opts;
  site_root : option string;
  driver : option nat;
  user_data : option user;
  project_url : option string;
  journal : list event
}.

Definition with_driver (d : nat) (s : instance) : instance :=
  {| driver_opts := driver_opts s; site_root := site_root s;
     driver := Some d; user_data := user_data s;
     project_url := project_url s; journal := journal s |}.

Definition with_user_data (u : user) (s : instance) : instance :=
  {| driver_opts := driver_opts s; site_root := site_root s;
     driver := driver s; user_data := Some u;
     project_url := project_url s; journal := journal s |}.

Definition with_project_url (p : string) (s : instance) : instance :=
  {| driver_opts := driver_opts s; site_root := site_root s;
     driver := driver s; user_data := user_data s;
     project_url := Some p; journal := journal s |}.

Definition with_journal (j : list event) (s : instance) : instance :=
  {| driver_opts := driver_opts s; site_root := site_root s;
     driver := driver s; user_data := user_data s;
     project_url := project_url s; journal := j |}.

(** ** The rendered page

    An element of the document as the browser reports it: tag name,
    class list, attributes, rendered text and child elements in
    document order. *)
#[warnings="-register-all"]
Inductive element : Type :=
| Node (tag : string) (classes : list string)
       (attrs : list (string * string)) (text : string)
       (children : list element).

Definition tag_of (e : element) : string :=
  match e with Node t _ _ _ _ => t end.
Definition classes_of (e : element) : list string :=
  match e with Node _ c _ _ _ => c end.
Definition attrs_of (e : element) : list (string * string) :=
  match e with Node _ _ a _ _ => a end.
Definition text_of (e : element) : string :=
  match e with Node _ _ _ t _ => t end.
Definition children_of (e : element) : list element :=
  match e with Node _ _ _ _ k => k end.

(** [element.get_attribute(name)]: [None] when the attribute is absent. *)
Fixpoint get_attribute_in (a : list (string * string)) (name : string)
  : option string :=
  match a with
  | [] => None
  | (k, v) :: rest => if String.eqb k name then Some v else get_attribute_in rest name
  end.

Definition get_attribute (e : element) (name : string) : option string :=
  get_attribute_in (attrs_of e) name.

Definition mem_string (x : string) (l : list string) : bool :=
  existsb (String.eqb x) l.

(** The CSS selectors the fixtures use: a chain of compound selectors
    joined by the descendant combinator, each naming a tag, optionally
    a class and optionally [:nth-of-type(1)]. *)
Record compound : Type := {
  sel_tag : string;
  sel_class : option string;
  sel_first_of_type : bool
}.

Definition selector : Type := list compound.

(** An element on the path from the root, with whether it is the
    first of its tag among its siblings. *)
Definition placed : Type := (element * bool)%type.

Definition compound_matches (c : compound) (p : placed) : bool :=
  String.eqb (sel_tag c) (tag_of (fst p))
  && match sel_class c with
     | Some k => mem_string k (classes_of (fst p))
     | None => true
     end
  && (negb (sel_first_of_type c) || snd p).

(** Does some chain of ancestors (nearest first) satisfy the remaining
    compounds (innermost first)? *)
Fixpoint ancestors_match (outer : list compound) (ancs : list placed) : bool :=
  match outer with
  | [] => true
  | c :: outer' =>
      (fix search (l : list placed) : bool :=
         match l with
         | [] => false
         | a :: l' =>
             (compound_matches c a && ancestors_match outer' l') || search l'
         end) ancs
  end.

Definition selector_matches (sel : selector) (ancs : list placed) (p : placed)
  : bool :=
  match rev sel with
  | [] => false
  | c :: outer => compound_matches c p && ancestors_match outer ancs
  end.

(** All matches at or below an element, in document order. *)
Fixpoint select_from (sel : selector) (ancs : list placed) (first : bool)
  (e : element) {struct e} : list element :=
  match e with
  | Node t c a x kids =>
      let here := (Node t c a x kids, first) in
      (if selector_matches sel ancs here then [Node t c a x kids] else [])
      ++ (fix below (seen : list string) (ks : list element) : list element :=
            match ks with
            | [] => []
            | k :: ks' =>
                select_from sel (here :: ancs)
                            (negb (mem_string (tag_of k) seen)) k
                ++ below (tag_of k :: seen) ks'
            end) [] kids
  end%list.

(** All matches strictly below an element, in document order. *)
Fixpoint select_below (sel : selector) (ancs : list placed)
  (seen : list string) (ks : list element) : list element :=
  match ks with
  | [] => []
  | k :: ks' =>
      (select_from sel ancs (negb (mem_string (tag_of k) seen)) k
       ++ select_below sel ancs (tag_of k :: seen) ks')%list
  end.

(** [driver.find_elements_by_css_selector]: the whole document. *)
Definition document_find_elements (root : element) (sel : selector)
  : list element :=
  select_from sel [] true root.

(** [element.find_elements_by_css_selector]: the descendants of the
    element. *)
Definition find_elements_by_css_selector (e : element) (sel : selector)
  : list element :=
  select_below sel [(e, true)] [] (children_of e).

(** [find_element...] is the first of [find_elements...] or raises. *)
Definition first_or_raise (found : list element) : result element :=
  match found with
  | [] => inl NoSuchElementException
  | e :: _ => inr e
  end.

(** The selector strings of [get_log], parsed. *)
Definition css_log_list : selector :=
  [ {| sel_tag := "div"; sel_class := Some "span5"; sel_first_of_type := false |};
    {| sel_tag := "dl"; sel_class := None; sel_first_of_type := false |} ].
Definition css_first_dd : selector :=
  [ {| sel_tag := "dd"; sel_class := None; sel_first_of_type := true |} ].
Definition css_first_dt : selector :=
  [ {| sel_tag := "dt"; sel_class := None; sel_first_of_type := true |} ].
Definition css_anchor : selector :=
  [ {| sel_tag := "a"; sel_class := None; sel_first_of_type := false |} ].

(** The outside world: for every history and call, whether the call
    returns normally, what the value-returning collaborators produce,
    and the page the browser shows. *)
Record world : Type := {
  returns : list event -> call -> bool;
  fresh_driver : list event -> nat;
  fresh_user : list event -> user;
  fresh_project : list event -> string;
  rendered : list event -> element
}.

(** ** A state-and-exception monad for method bodies

    A raised exception keeps the attribute assignments and the calls
    made before it. *)
Definition M (A : Type) : Type := instance -> result A * instance.

Definition ret {A} (a : A) : M A := fun s => (inr a, s).

Definition raise {A} (e : exn) : M A := fun s => (inl e, s).

Definition bind {A B} (m : M A) (k : A -> M B) : M B :=
  fun s =>
    match m s with
    | (inl e, s') => (inl e, s')
    | (inr a, s') => k a s'
    end.

Declare Scope py_scope.
Delimit Scope py_scope with py.
Notation "x <- m ;; k" := (bind m (fun x => k))
  (at level 61, m at next level, right associativity) : py_scope.
Notation "m ;; k" := (bind m (fun _ => k))
  (at level 61, right associativity) : py_scope.
Open Scope py_scope.

(** [self.<attr>]: read an attribute, raising when it is unset. *)
Definition getattr {A} (name : string) (field : instance -> option A) : M A :=
  fun s =>
    match field s with
    | Some a => (inr a, s)
    | None => (inl (AttributeError name), s)
    end.

Definition modify (f : instance -> instance) : M unit :=
  fun s => (inr tt, f s).

(** ** Strings and sequences the way Python treats them *)

(** Positional arguments are arbitrary objects; only strings can be
    joined. *)
Inductive pyobj : Type :=
| PyStr (s : string)
| PyInt (n : nat)
| PyNone.

(** [s[:-1]]: everything but the last character; the empty string
    stays empty. *)
Fixpoint drop_last (s : string) : string :=
  match s with
  | EmptyString => EmptyString
  | String c rest =>
      match rest with
      | EmptyString => EmptyString
      | String _ _ => String c (drop_last rest)
      end
  end.

(** [args[i]] on a tuple: [IndexError] past the end. *)
Definition getitem_tuple (args : list pyobj) (i : nat) : result pyobj :=
  match nth_error args i with
  | Some a => inr a
  | None => inl IndexError
  end.

Fixpoint all_strs (items : list pyobj) : option (list string) :=
  match items with
  | [] => Some []
  | PyStr s :: rest =>
      match all_strs rest with
      | Some l => Some (s :: l)
      | None => None
      end
  | _ :: _ => None
  end.

(** [sep.join(items)]: [TypeError] when an item is not a string. *)
Definition join (sep : string) (items : list pyobj) : result string :=
  match all_strs items with
  | Some l => inr (String.concat sep l)
  | None => inl TypeError
  end.

(** [d[key]] on a dict literal, kept as its list of items. *)
Fixpoint getitem_dict {V} (d : list (string * V)) (key : string) : result V :=
  match d with
  | [] => inl (KeyError key)
  | (k, v) :: rest => if String.eqb k key then inr v else getitem_dict rest key
  end.

(** A pure result used inside a method body. *)
Definition lift {A} (r : result A) : M A := fun s => (r, s).

Section Fixtures.

Variable w : world.

(** One outside call: it is entered in the journal with its outcome
    and raises when the world says so; [value] is what it returns. *)
Definition outside {A} (c : call) (value : list event -> A) : M A :=
  fun s =>
    let ok := returns w (journal s) c in
    let s' := with_journal (journal s ++ [(c, ok)])%list s in
    if ok then (inr (value (journal s)), s') else (inl WebDriverException, s').

Definition unit_call (c : call) : M unit := outside c (fun _ => tt).

(** The collaborators of the [util] module. *)
Definition launch_driver (opts : option launch_opts) : M nat :=
  outside (Launch opts) (fresh_driver w).
Definition create_user (d : nat) : M user := outside CreateUser (fresh_user w).
Definition login (d : nat) (name pass : string) : M unit :=
  unit_call (Login name pass).
Definition logout (d : nat) : M unit := unit_call Logout.
Definition create_project (d : nat) : M string :=
  outside CreateProject (fresh_project w).
Definition goto_project (d : nat) : M unit := unit_call GotoProject.
Definition delete_project (d : nat) : M unit := unit_call DeleteProject.

(** The WebDriver methods the fixtures call. *)
Definition driver_quit (d : nat) : M unit := unit_call Quit.
Definition driver_get (d : nat) (url : string) : M unit := unit_call (Get url).

(** *** SmokeTest *)

Definition SmokeTest_setUp : M unit :=
  fun s =>
    match driver_opts s with
    | Some opts => (d <- launch_driver (Some opts) ;; modify (with_driver d)) s
    | None => (d <- launch_driver None ;; modify (with_driver d)) s
    end.

Definition SmokeTest_tearDown : M unit :=
  d <- getattr "driver" driver ;;
  driver_quit d.

(** *** UserSmokeTest *)

Definition UserSmokeTest_setUp : M unit :=
  SmokeTest_setUp ;;
  d <- getattr "driver" driver ;;
  u <- create_user d ;;
  modify (with_user_data u) ;;
  d <- getattr "driver" driver ;;
  u <- getattr "user_data" user_data ;;
  login d (username u) (password u).

Definition UserSmokeTest_tearDown : M unit :=
  d <- getattr "driver" driver ;;
  logout d ;;
  SmokeTest_tearDown.

(** *** ProjectSmokeTest *)

Definition ProjectSmokeTest_setUp : M unit :=
  UserSmokeTest_setUp ;;
  d <- getattr "driver" driver ;;
  p <- create_project d ;;
  modify (with_project_url p) ;;
  d <- getattr "driver" driver ;;
  goto_project d.

Definition ProjectSmokeTest_tearDown : M unit :=
  d <- getattr "driver" driver ;;
  delete_project d ;;
  UserSmokeTest_tearDown.

(** [goto]: the dict of lambdas is built first (no lambda runs), the
    bound method [self.driver.get] is looked up, the entry for [page]
    is fetched and called, and the browser is sent to the result. *)
Definition build_path (args : list pyobj) : list (string * M string) :=
  [ ("dashboard",
       getattr "project_url" project_url);
    ("files",
       p <- getattr "project_url" project_url ;;
       lift (join "/" [PyStr (drop_last p); PyStr "files"]));
    ("file",
       p <- getattr "project_url" project_url ;;
       a <- lift (getitem_tuple args 0) ;;
       lift (join "/" [PyStr (drop_last p); PyStr "files"; a]));
    ("user-dashboard",
       r <- getattr "site_root" site_root ;;
       lift (join "/" [PyStr r; PyStr "dashboard"])) ].

Definition goto (page : string) (args : list pyobj) : M unit :=
  d <- getattr "driver" driver ;;
  rule <- lift (getitem_dict (build_path args) page) ;;
  url <- rule ;;
  driver_get d url.

(** *** Method resolution and the test runner *)

Inductive layer : Type := SmokeTest | UserSmokeTest | ProjectSmokeTest.

Definition setUp (l : layer) : M unit :=
  match l with
  | SmokeTest => SmokeTest_setUp
  | UserSmokeTest => UserSmokeTest_setUp
  | ProjectSmokeTest => ProjectSmokeTest_setUp
  end.

Definition tearDown (l : layer) : M unit :=
  match l with
  | SmokeTest => SmokeTest_tearDown
  | UserSmokeTest => UserSmokeTest_tearDown
  | ProjectSmokeTest => ProjectSmokeTest_tearDown
  end.

(** The test method is opaque here: one outside call that returns or
    raises. *)
Definition test_method : M unit := unit_call TestMethod.

Definition errors_of {A} (r : result A) : list exn :=
  match r with inl e => [e] | inr _ => [] end.

(** [unittest.TestCase.run], the runner the fixture classes are mixed
    into: [setUp] first; when it raises the error is recorded and
    neither the test method nor [tearDown] is called; otherwise the
    test method runs and [tearDown] follows whether or not it raised. *)
Definition run (l : layer) (s : instance) : list exn * instance :=
  match setUp l s with
  | (inl e, s1) => ([e], s1)
  | (inr _, s1) =>
      let '(rb, s2) := test_method s1 in
      let '(rt, s3) := tearDown l s2 in
      ((errors_of rb ++ errors_of rt)%list, s3)
  end.

End Fixtures.

(** A fresh test instance, as the runner constructs it. *)
Definition fresh_instance (opts : option launch_opts) (root : option string)
  : instance :=
  {| driver_opts := opts; site_root := root; driver := None;
     user_data := None; project_url := None; journal := [] |}.

(** ** Timestamps: [datetime.strptime] at the format of [get_log]

    [strptime] turns the format into a regular expression (one named
    group per directive, every run of blanks into [\s+]), compiles it
    ignoring case, matches it at the start of the text, insists that
    the match covers the whole text, converts the groups to numbers
    and builds a date, which checks the day against the month.

    The text is a Python 3 string, taken character by character;
    a character here is a code point below 256.  For such text [\s]
    is the white space of Unicode and [\d] the ten ASCII digits, and
    no character but a letter in the other case matches a letter
    when case is ignored. *)

Inductive regex : Type :=
| Eps
| Chr (c : ascii)
| Class (cs : list ascii)
| Many1 (cs : list ascii)
| Cat (r1 r2 : regex)
| Alt (r1 r2 : regex)
| Group (name : string) (r : regex).

(** Lower-casing of the 26 ASCII letters. *)
Definition lower (c : ascii) : ascii :=
  let n := nat_of_ascii c in
  if (65 <=? n) && (n <=? 90) then ascii_of_nat (n + 32) else c.

(** Comparison of characters under [re.IGNORECASE]. *)
Definition same_char (a b : ascii) : bool := Ascii.eqb (lower a) (lower b).

Definition in_class (cs : list ascii) (x : ascii) : bool :=
  existsb (fun c => same_char c x) cs.

Definition groups : Type := list (string * list ascii).

(** Greedy repetition of a class with backtracking: the longest run
    first, then shorter ones. *)
Fixpoint many {A} (cs : list ascii) (s : list ascii)
  (k : list ascii -> option A) : option A :=
  match s with
  | x :: s' =>
      if in_class cs x then
        match many cs s' k with
        | Some a => Some a
        | None => k s
        end
      else k s
  | [] => k []
  end.

(** Backtracking matcher in continuation style: alternatives are
    tried left to right, and a group records the text it consumed. *)
Fixpoint rmatch {A} (r : regex) (s : list ascii) (g : groups)
  (k : list ascii -> groups -> option A) : option A :=
  match r with
  | Eps => k s g
  | Chr c =>
      match s with
      | x :: s' => if same_char c x then k s' g else None
      | [] => None
      end
  | Class cs =>
      match s with
      | x :: s' => if in_class cs x then k s' g else None
      | [] => None
      end
  | Many1 cs =>
      match s with
      | x :: s' => if in_class cs x then many cs s' (fun rest => k rest g) else None
      | [] => None
      end
  | Cat r1 r2 => rmatch r1 s g (fun s' g' => rmatch r2 s' g' k)
  | Alt r1 r2 =>
      match rmatch r1 s g k with
      | Some a => Some a
      | None => rmatch r2 s g k
      end
  | Group name r1 =>
      rmatch r1 s g
        (fun s' g' => k s' ((name, firstn (length s - length s') s) :: g'))
  end.

(** [regex.match(text)]: the unmatched rest and the groups. *)
Definition re_match (r : regex) (s : list ascii) : option (list ascii * groups) :=
  rmatch r s [] (fun rest g => Some (rest, g)).

Definition chars (s : string) : list ascii := list_ascii_of_string s.

Definition digit : list ascii := chars "0123456789".
Definition nonzero : list ascii := chars "123456789".

(** [\s] of a text pattern: the white space of Unicode.  Below code
    256 these are the space, the controls 9 to 13 and 28 to 31, the
    next-line control 133 and the no-break space 160. *)
Definition blank : list ascii :=
  [" "%char; "009"%char; "010"%char; "011"%char; "012"%char; "013"%char;
   "028"%char; "029"%char; "030"%char; "031"%char; "133"%char; "160"%char].

(** The white space [int] skips around a number: the same without
    the controls 28 to 31. *)
Definition int_blank : list ascii :=
  [" "%char; "009"%char; "010"%char; "011"%char; "012"%char; "013"%char;
   "133"%char; "160"%char].

Fixpoint literal (l : list ascii) : regex :=
  match l with
  | [] => Eps
  | [c] => Chr c
  | c :: l' => Cat (Chr c) (literal l')
  end.

(** The entries of the [TimeRE] table that the format uses, for the
    C locale ([am], [pm]). *)

(** [1[0-2]|0[1-9]|[1-9]], the body of [%m] and [%I]. *)
Definition re_twelve : regex :=
  Alt (Cat (Chr "1") (Class (chars "012")))
  (Alt (Cat (Chr "0") (Class nonzero))
       (Class nonzero)).

(** [3[0-1]|[1-2]\d|0[1-9]|[1-9]| [1-9]], the body of [%d]. *)
Definition re_day : regex :=
  Alt (Cat (Chr "3") (Class (chars "01")))
  (Alt (Cat (Class (chars "12")) (Class digit))
  (Alt (Cat (Chr "0") (Class nonzero))
  (Alt (Class nonzero)
       (Cat (Chr " ") (Class nonzero))))).

(** [[0-5]\d|\d], the body of [%M]. *)
Definition re_minute : regex :=
  Alt (Cat (Class (chars "012345")) (Class digit))
      (Class digit).

(** [\d\d], the body of [%y]. *)
Definition re_year2 : regex := Cat (Class digit) (Class digit).

(** [am|pm], the body of [%p]. *)
Definition re_ampm : regex :=
  Alt (literal (chars "am")) (literal (chars "pm")).

Definition directive (d : ascii) : option regex :=
  if Ascii.eqb d "d" then Some (Group "d" re_day)
  else if Ascii.eqb d "I" then Some (Group "I" re_twelve)
  else if Ascii.eqb d "m" then Some (Group "m" re_twelve)
  else if Ascii.eqb d "M" then Some (Group "M" re_minute)
  else if Ascii.eqb d "y" then Some (Group "y" re_year2)
  else if Ascii.eqb d "p" then Some (Group "p" re_ampm)
  else None.

(** [TimeRE.pattern]: directives become their groups, a run of blanks
    becomes [\s+], anything else stands for itself. *)
Fixpoint pattern (after_blank : bool) (fmt : list ascii) : option regex :=
  match fmt with
  | [] => Some Eps
  | c :: rest =>
      if in_class blank c then
        if after_blank then pattern true rest
        else option_map (Cat (Many1 blank)) (pattern true rest)
      else if Ascii.eqb c "%" then
        match rest with
        | d :: rest' =>
            match directive d, pattern false rest' with
            | Some r, Some p => Some (Cat r p)
            | _, _ => None
            end
        | [] => None
        end
      else option_map (Cat (Chr c)) (pattern false rest)
  end.

Record datetime : Type := {
  year : nat;
  month : nat;
  day : nat;
  hour : nat;
  minute : nat;
  second : nat
}.

Definition digit_value (c : ascii) : option nat :=
  let n := nat_of_ascii c in
  if (48 <=? n) && (n <=? 57) then Some (n - 48) else None.

Fixpoint digits_value (acc : nat) (l : list ascii) : option nat :=
  match l with
  | [] => Some acc
  | c :: l' =>
      match digit_value c with
      | Some v => digits_value (10 * acc + v) l'
      | None => None
      end
  end.

Fixpoint lstrip (l : list ascii) : list ascii :=
  match l with
  | c :: l' => if in_class int_blank c then lstrip l' else l
  | [] => []
  end.

(** [int(text)] on the text of a group, which holds digits, after a
    space in a day padded with one: leading white space is skipped,
    at least one digit is required. *)
Definition int (l : list ascii) : option nat :=
  match lstrip l with
  | [] => None
  | d => digits_value 0 d
  end.

Fixpoint group (g : groups) (name : string) : option (list ascii) :=
  match g with
  | [] => None
  | (k, v) :: rest => if String.eqb k name then Some v else group rest name
  end.

Definition is_leap (y : nat) : bool :=
  (y mod 4 =? 0) && (negb (y mod 100 =? 0) || (y mod 400 =? 0)).

Definition days_in_month (y m : nat) : nat :=
  match m with
  | 2 => if is_leap y then 29 else 28
  | 4 | 6 | 9 | 11 => 30
  | _ => 31
  end.

(** The date constructor: [ValueError] when the day does not exist. *)
Definition make_datetime (y mo d h mi : nat) : result datetime :=
  if (1 <=? mo) && (mo <=? 12) && (1 <=? d) && (d <=? days_in_month y mo)
     && (h <=? 23) && (mi <=? 59)
  then inr {| year := y; month := mo; day := d;
              hour := h; minute := mi; second := 0 |}
  else inl ValueError.

(** Two-digit years: 00-68 are 2000-2068, 69-99 are 1969-1999. *)
Definition century (yy : nat) : nat :=
  if yy <=? 68 then yy + 2000 else yy + 1900.

(** Twelve-hour clock: 12 AM is hour 0, 12 PM stays 12. *)
Definition hour24 (h : nat) (ampm : list ascii) : nat :=
  let p := map lower ampm in
  if list_eq_dec ascii_dec p [] then (if h =? 12 then 0 else h)
  else if list_eq_dec ascii_dec p (chars "am") then (if h =? 12 then 0 else h)
  else if list_eq_dec ascii_dec p (chars "pm") then (if h =? 12 then h else h + 12)
  else h.

Definition from_groups (g : groups) : result datetime :=
  match
    match group g "y" with Some t => option_map century (int t) | None => Some 1900 end,
    match group g "m" with Some t => int t | None => Some 1 end,
    match group g "d" with Some t => int t | None => Some 1 end,
    match group g "I" with
    | Some t =>
        option_map
          (fun h => hour24 h match group g "p" with Some a => a | None => [] end)
          (int t)
    | None => Some 0
    end,
    match group g "M" with Some t => int t | None => Some 0 end
  with
  | Some y, Some mo, Some d, Some h, Some mi => make_datetime y mo d h mi
  | _, _, _, _, _ => inl ValueError
  end.

Definition strptime (text fmt : string) : result datetime :=
  match pattern false (chars fmt) with
  | None => inl ValueError
  | Some r =>
      match re_match r (chars text) with
      | None => inl ValueError
      | Some (rest, g) =>
          match rest with
          | [] => from_groups g
          | _ :: _ => inl ValueError
          end
      end
  end.

(** The format of the rendered log timestamps. *)
Definition log_format : string := "%m/%d/%y %I:%M %p".

(** ** Reading the latest log entry *)

Record LogEntry : Type := {
  log_text : string;
  log_url : list (option string);
  log_time : datetime
}.

(** The loop [for x in css_url: self.log_url.append(...)]. *)
Definition append_hrefs (css_url : list element) : list (option string) :=
  fold_left (fun log_url x => (log_url ++ [get_attribute x "href"])%list)
            css_url [].

(** [LogEntry.__init__]. *)
Definition LogEntry_init (log_element : element) : result LogEntry :=
  match first_or_raise (find_elements_by_css_selector log_element css_first_dd) with
  | inl e => inl e
  | inr entry_element =>
      let text := text_of entry_element in
      let css_url := find_elements_by_css_selector entry_element css_anchor in
      let urls := append_hrefs css_url in
      match first_or_raise (find_elements_by_css_selector log_element css_first_dt) with
      | inl e => inl e
      | inr stamp =>
          match strptime (text_of stamp) log_format with
          | inl e => inl e
          | inr t => inr {| log_text := text; log_url := urls; log_time := t |}
          end
      end
  end.

(** [get_log]: the first [div.span5 dl] of the page the browser
    shows, parsed. *)
Definition get_log (w : world) : M LogEntry :=
  d <- getattr "driver" driver ;;
  fun s =>
    match first_or_raise (document_find_elements (rendered w (journal s)) css_log_list) with
    | inl e => (inl e, s)
    | inr log_entry_element => (LogEntry_init log_entry_element, s)
    end.

(** ** Waiting for an element

    Time is counted in milliseconds.  The browser is what the wait
    observes: the page at each instant, which elements are displayed,
    and how long one look at the page takes. *)
Record browser : Type := {
  page_at : nat -> element;
  displayed_at : nat -> element -> bool;
  lookup_cost : nat -> nat
}.

(** [expected_conditions.visibility_of_element_located]: the element
    when it is found and displayed, [False] (here [None]) when it is
    found but hidden; a missing element raises. *)
Definition visibility_of_element_located (b : browser) (css : selector)
  (now : nat) : result (option element) :=
  match first_or_raise (document_find_elements (page_at b now) css) with
  | inl e => inl e
  | inr e => inr (if displayed_at b now e then Some e else None)
  end.

(** [WebDriverWait]'s polling period, half a second. *)
Definition POLL_FREQUENCY : nat := 500.

(** The loop of [WebDriverWait.until]: call the condition, return a
    truthy value, swallow [NoSuchElementException], sleep, and give
    up once the clock has passed the deadline.  Each round returns
    the outcome with the time at which it was reached. *)
Fixpoint until_loop (rounds : nat) (b : browser) (css : selector)
  (end_time now : nat) : option (result element * nat) :=
  match rounds with
  | 0 => None
  | S rounds' =>
      let looked := now + lookup_cost b now in
      let again :=
        let slept := looked + POLL_FREQUENCY in
        if end_time <? slept then Some (inl TimeoutException, slept)
        else until_loop rounds' b css end_time slept in
      match visibility_of_element_located b css now with
      | inr (Some e) => Some (inr e, looked)
      | inr None => again
      | inl NoSuchElementException => again
      | inl e => Some (inl e, looked)
      end
  end.

(** [WebDriverWait(driver, timeout).until(method)], with [timeout] in
    seconds; the deadline is fixed before the first look. *)
Definition until (b : browser) (timeout : nat) (css : selector) (start : nat)
  : option (result element * nat) :=
  until_loop (timeout * 1000 / POLL_FREQUENCY + 2) b css
             (start + timeout * 1000) start.

(** [get_element]: wait up to ten seconds for a visible match. *)
Definition get_element (b : browser) (css : selector) (start : nat)
  : option (result element * nat) :=
  until b 10 css start.

(** ** Vocabulary for the properties *)

Definition calls (j : list event) : list call := map fst j.

Definition is_launch (c : call) : bool :=
  match c with Launch _ => true | _ => false end.
Definition is_quit (c : call) : bool :=
  match c with Quit => true | _ => false end.
Definition is_close (c : call) : bool :=
  match c with Close => true | _ => false end.
Definition is_login (c : call) : bool :=
  match c with Login _ _ => true | _ => false end.
Definition is_goto_project (c : call) : bool :=
  match c with GotoProject => true | _ => false end.
Definition is_test_method (c : call) : bool :=
  match c with TestMethod => true | _ => false end.
Definition is_teardown_step (c : call) : bool :=
  match c with DeleteProject | Logout | Quit => true | _ => false end.

(** Sessions asked for and sessions released. *)
Definition acquire_calls (j : list event) : nat :=
  length (filter is_launch (calls j)).
Definition release_calls (j : list event) : nat :=
  length (filter is_quit (calls j)).

(** The teardown steps of a history, in the order they were made. *)
Definition teardown_calls (j : list event) : list call :=
  filter is_teardown_step (calls j).

(** Some call of the given kind returned normally. *)
Definition returned (kind : call -> bool) (j : list event) : bool :=
  existsb (fun ev => kind (fst ev) && snd ev) j.

(** A setup stage is complete once its last step has returned: the
    launch for the session, the login for the user, the visit of the
    project page for the project. *)
Definition session_stage (j : list event) : bool := returned is_launch j.
Definition user_stage (j : list event) : bool := returned is_login j.
Definition project_stage (j : list event) : bool := returned is_goto_project j.

(** The reverse of the completed setup stages, as teardown steps. *)
Definition mirror_of_completed (j : list event) : list call :=
  ((if project_stage j then [DeleteProject] else [])
   ++ (if user_stage j then [Logout] else [])
   ++ (if session_stage j then [Quit] else []))%list.

(** The reverse of all setup stages of a layer. *)
Definition mirror (l : layer) : list call :=
  match l with
  | SmokeTest => [Quit]
  | UserSmokeTest => [Logout; Quit]
  | ProjectSmokeTest => [DeleteProject; Logout; Quit]
  end.

(** Every teardown step of the history returned normally. *)
Definition teardown_clean (j : list event) : bool :=
  forallb (fun ev => negb (is_teardown_step (fst ev)) || snd ev) j.

(** A teardown step that raised is the last teardown step of the
    history: nothing is released after it. *)
Fixpoint raise_ends_teardown (j : list event) : bool :=
  match j with
  | [] => true
  | ev :: rest =>
      (if is_teardown_step (fst ev) && negb (snd ev)
       then negb (existsb is_teardown_step (calls rest))
       else true)
      && raise_ends_teardown rest
  end.

Definition setup_failed (w : world) (l : layer) (s : instance) : Prop :=
  exists e s1, setUp w l s = (inl e, s1).

Definition setup_completed (w : world) (l : layer) (s : instance) : Prop :=
  exists s1, setUp w l s = (inr tt, s1).

(** The journal with which a run of a test ends. *)
Definition run_journal (w : world) (l : layer) (s : instance) : list event :=
  journal (snd (run w l s)).

(** The statement that a failed setup is still cleaned up and that
    acquisitions and releases balance, at one run. *)
Definition cleanup_after_failed_setup (w : world) (l : layer) (s : instance)
  : Prop :=
  let j := run_journal w l s in
  (setup_failed w l s ->
     returned is_test_method j = false
     /\ (forall c, In c (mirror_of_completed j) -> In c (teardown_calls j)))
  /\ acquire_calls j = release_calls j.

(** The statement that teardown mirrors the completed setup stages,
    at one run. *)
Definition teardown_mirrors_setup (w : world) (l : layer) (s : instance)
  : Prop :=
  let j := run_journal w l s in
  teardown_calls j = mirror_of_completed j.

(** [l1] is an initial segment of [l2]. *)
Definition prefix_of {A} (l1 l2 : list A) : Prop := exists rest, l2 = (l1 ++ rest)%list.

(** Addresses the browser was sent to, oldest first. *)
Fixpoint requested (j : list event) : list string :=
  match j with
  | [] => []
  | (Get url, _) :: rest => url :: requested rest
  | _ :: rest => requested rest
  end.

(** Slashes in an address. *)
Definition starts_slash (s : string) : bool :=
  match s with String "/" _ => true | _ => false end.

Fixpoint ends_slash (s : string) : bool :=
  match s with
  | EmptyString => false
  | String c EmptyString => Ascii.eqb c "/"
  | String _ rest => ends_slash rest
  end.

Fixpoint double_slash (s : string) : bool :=
  match s with
  | EmptyString => false
  | String c rest => (Ascii.eqb c "/" && starts_slash rest) || double_slash rest
  end.

(** The statement that the address of a file is the project address
    [base/] with [files] and the name appended and no doubled slash,
    at one call; the slashes of [base] itself (those of [http://],
    say) are not held against it. *)
Definition file_address_as_claimed (w : world) (s : instance)
  (base name : string) : Prop :=
  project_url s = Some (base ++ "/") ->
  let target := base ++ "/files/" ++ name in
  requested (journal (snd (goto w "file" [PyStr name] s)))
  = (requested (journal s) ++ [target])%list
  /\ double_slash ("/files/" ++ name) = false.

(** Elements at or below an element, in document order. *)
Fixpoint document_order (e : element) : list element :=
  match e with
  | Node t c a x kids =>
      Node t c a x kids
      :: (fix each (ks : list element) : list element :=
            match ks with
            | [] => []
            | k :: ks' => (document_order k ++ each ks')%list
            end) kids
  end.

(** The links embedded in an element: the [a] elements strictly below
    it, in document order. *)
Definition embedded_links (e : element) : list element :=
  filter (fun x => String.eqb (tag_of x) "a")
         (flat_map document_order (children_of e)).

(** The language of a regular expression, letter case ignored. *)
Inductive in_lang : regex -> list ascii -> Prop :=
| lang_eps : in_lang Eps []
| lang_chr c x : same_char c x = true -> in_lang (Chr c) [x]
| lang_class cs x : in_class cs x = true -> in_lang (Class cs) [x]
| lang_many1 cs x l :
    in_class cs x = true ->
    Forall (fun y => in_class cs y = true) l ->
    in_lang (Many1 cs) (x :: l)
| lang_cat r1 r2 s1 s2 :
    in_lang r1 s1 -> in_lang r2 s2 -> in_lang (Cat r1 r2) (s1 ++ s2)%list
| lang_alt_l r1 r2 s : in_lang r1 s -> in_lang (Alt r1 r2) s
| lang_alt_r r1 r2 s : in_lang r2 s -> in_lang (Alt r1 r2) s
| lang_group name r s : in_lang r s -> in_lang (Group name r) s.

(** The timestamp shape in words: month/day/2-digit-year
    hour:minute AM|PM. *)




Definition blanks (t : list ascii) : Prop :=
  t <> [] /\ Forall (fun c => In c blank) t.

Definition meridiem (t : list ascii) : Prop :=
  map lower t = chars "am" \/ map lower t = chars "pm".


(** The format taken to the letter, as in 03/14/24 02:15 PM: two
    digits in every field, one space before the hour and before the
    meridiem, AM or PM in capitals. *)
Definition is_digit (c : ascii) : bool :=
  match digit_value c with Some _ => true | None => false end.

Definition fixed_format (text : string) : bool :=
  match chars text with
  | [m1; m2; s1; d1; d2; s2; y1; y2; b1; h1; h2; c; n1; n2; b2; p; m] =>
      forallb is_digit [m1; m2; d1; d2; y1; y2; h1; h2; n1; n2]
      && forallb (Ascii.eqb "/") [s1; s2]
      && forallb (Ascii.eqb " ") [b1; b2]
      && Ascii.eqb ":" c
      && (Ascii.eqb "A" p || Ascii.eqb "P" p)
      && Ascii.eqb "M" m
  | _ => false
  end.

(** The statement that a timestamp outside the fixed format makes
    [get_log] raise, at one page. *)
Definition off_format_stamp_raises (w : world) (s : instance) : Prop :=
  forall dl dt,
    first_or_raise (document_find_elements (rendered w (journal s)) css_log_list)
    = inr dl ->
    first_or_raise (find_elements_by_css_selector dl css_first_dt) = inr dt ->
    fixed_format (text_of dt) = false ->
    exists e, fst (get_log w s) = inl e.

(** The regular expression of the log format. *)
Definition log_regex : regex :=
  Cat (Group "m" re_twelve) (Cat (Chr "/")
  (Cat (Group "d" re_day) (Cat (Chr "/")
  (Cat (Group "y" re_year2) (Cat (Many1 blank)
  (Cat (Group "I" re_twelve) (Cat (Chr ":")
  (Cat (Group "M" re_minute) (Cat (Many1 blank)
  (Cat (Group "p" re_ampm) Eps)))))))))).

(** Every character, for checks by enumeration. *)
Definition all_ascii : list ascii := map ascii_of_nat (seq 0 256).


(** A selector never matches a visible element. *)
Definition never_visible (b : browser) (css : selector) : Prop :=
  forall t e, visibility_of_element_located b css t <> inr (Some e).

(** One look at the page takes at most [delta] milliseconds. *)
Definition lookup_within (b : browser) (delta : nat) : Prop :=
  forall t, lookup_cost b t <= delta.

(** ** Sample data *)

(** A world in which every call returns. *)
Definition calm (page : element) : world :=
  {| returns := fun _ _ => true;
     fresh_driver := fun _ => 1;
     fresh_user := fun _ =>
       {| username := "test@example.com"; password := "secret";
          fullname := "Test User" |};
     fresh_project := fun _ => "http://localhost:5000/project/abc/";
     rendered := fun _ => page |}.

(** A world in which one kind of call raises and every other returns. *)
Definition failing (kind : call -> bool) (page : element) : world :=
  {| returns := fun _ c => negb (kind c);
     fresh_driver := fresh_driver (calm page);
     fresh_user := fresh_user (calm page);
     fresh_project := fresh_project (calm page);
     rendered := rendered (calm page) |}.

Definition is_delete_project (c : call) : bool :=
  match c with DeleteProject => true | _ => false end.

(** A rendered log fragment inside its page. *)
Definition sample_anchor : element :=
  Node "a" [] [("href", "/project/abc/files/report.csv")] "report.csv" [].

Definition sample_entry : element :=
  Node "dd" [] [] "Created file report.csv" [sample_anchor].

Definition sample_log (stamp : string) : element :=
  Node "dl" [] [] "" [Node "dt" [] [] stamp []; sample_entry].

Definition sample_page (stamp : string) : element :=
  Node "html" [] [] ""
    [Node "body" [] [] ""
       [Node "div" ["span5"] [] "" [sample_log stamp]]].

(** A timestamp far from the fixed format that [strptime] reads all
    the same: one digit for the month, the hour and the minute, a day
    padded with a space, a tab and a file-separator control (code 28)
    where the spaces stand, and [pm] in small letters. *)
Definition off_format_stamp : string :=
  "3/ 4/24" ++ String "009" ("2:5" ++ String "028" "pm").

(** An instance after a completed [ProjectSmokeTest.setUp]. *)
Definition ready : instance :=
  {| driver_opts := None; site_root := Some "http://localhost:5000";
     driver := Some 1; user_data := Some (fresh_user (calm (sample_page "")) []);
     project_url := Some "http://localhost:5000/project/abc/";
     journal := [] |}.

(** A page with nothing in it, never displayed, looked at in 20 ms. *)
Definition blank_browser : browser :=
  {| page_at := fun _ => Node "html" [] [] "" [];
     displayed_at := fun _ _ => false;
     lookup_cost := fun _ => 20 |}.

(** ** Further vocabulary *)

(** The calls of a run in which nothing fails: the setup stages of
    the layer, the test method, and the teardown steps.  The login
    carries the credentials [create_user] returns right after the
    launch. *)
Definition script (w : world) (l : layer) (opts : option launch_opts)
  : list call :=
  let u := fresh_user w [(Launch opts, true)] in
  let user_steps := [CreateUser; Login (username u) (password u)] in
  let project_steps := [CreateProject; GotoProject] in
  (match l with
   | SmokeTest => [Launch opts]
   | UserSmokeTest => Launch opts :: user_steps
   | ProjectSmokeTest => Launch opts :: user_steps ++ project_steps
   end ++ TestMethod :: mirror l)%list.

(** No call but the test method and the last one has raised. *)
Fixpoint raises_only_at_end_or_in_test (j : list event) : bool :=
  match j with
  | [] => true
  | ev :: rest =>
      match rest with
      | [] => true
      | _ :: _ =>
          (snd ev || is_test_method (fst ev))
          && raises_only_at_end_or_in_test rest
      end
  end.

(** The journal a completed [ProjectSmokeTest.setUp] leaves. *)
Definition project_setup_journal (w : world) (opts : option launch_opts)
  : list event :=
  let u := fresh_user w [(Launch opts, true)] in
  [ (Launch opts, true); (CreateUser, true);
    (Login (username u) (password u), true);
    (CreateProject, true); (GotoProject, true) ].

(** The journal at the moment [create_project] is called in a setup
    without failures. *)
Definition before_project (w : world) (opts : option launch_opts)
  : list event :=
  let u := fresh_user w [(Launch opts, true)] in
  [ (Launch opts, true); (CreateUser, true);
    (Login (username u) (password u), true) ].

(** [l1] is [l2] with some elements left out, order kept. *)
Inductive subseq {A : Type} : list A -> list A -> Prop :=
| subseq_nil : subseq [] []
| subseq_skip x l1 l2 : subseq l1 l2 -> subseq l1 (x :: l2)
| subseq_take x l1 l2 : subseq l1 l2 -> subseq (x :: l1) (x :: l2).

(** The rightmost compound of a selector, the one the selected
    elements themselves must satisfy. *)
Definition subject (sel : selector) : option compound := hd_error (rev sel).

(** A [div] of class [span5], the container [get_log] looks into. *)
Definition is_log_container (e : element) : bool :=
  String.eqb "div" (tag_of e) && mem_string "span5" (classes_of e).

(** No [dd] or [dt] lies below the element. *)
Definition plain (k : element) : Prop :=
  forall x, In x (flat_map document_order (children_of k)) ->
            String.eqb "dd" (tag_of x) = false
            /\ String.eqb "dt" (tag_of x) = false.

(** The first child with a given tag. *)
Definition first_with_tag (tag : string) (kids : list element)
  : option element :=
  find (fun k => String.eqb tag (tag_of k)) kids.

(** The selector [tag:nth-of-type(1)]. *)
Definition css_first_of (tag : string) : selector :=
  [ {| sel_tag := tag; sel_class := None; sel_first_of_type := true |} ].

(** What a match of an expression adds to the groups: every group
    puts its name and the text it matched in front. *)
Inductive captures : regex -> list ascii -> groups -> groups -> Prop :=
| cap_eps g : captures Eps [] g g
| cap_chr c x g : same_char c x = true -> captures (Chr c) [x] g g
| cap_class cs x g : in_class cs x = true -> captures (Class cs) [x] g g
| cap_many1 cs x l g :
    in_class cs x = true ->
    Forall (fun y => in_class cs y = true) l ->
    captures (Many1 cs) (x :: l) g g
| cap_cat r1 r2 s1 s2 g g1 g2 :
    captures r1 s1 g g1 -> captures r2 s2 g1 g2 ->
    captures (Cat r1 r2) (s1 ++ s2)%list g g2
| cap_alt_l r1 r2 s g g1 : captures r1 s g g1 -> captures (Alt r1 r2) s g g1
| cap_alt_r r1 r2 s g g1 : captures r2 s g g1 -> captures (Alt r1 r2) s g g1
| cap_group name r s g g1 :
    captures r s g g1 -> captures (Group name r) s g ((name, s) :: g1).

(** The expression contains no group. *)
Fixpoint groupless (r : regex) : bool :=
  match r with
  | Eps | Chr _ | Class _ | Many1 _ => true
  | Cat r1 r2 | Alt r1 r2 => groupless r1 && groupless r2
  | Group _ _ => false
  end.

(** The instants the log format can denote: a day that exists, in the
    hundred years two digits stand for, at a full minute. *)
Definition valid_stamp (t : datetime) : Prop :=
  1969 <= year t <= 2068
  /\ 1 <= month t <= 12
  /\ 1 <= day t <= days_in_month (year t) (month t)
  /\ hour t <= 23
  /\ minute t <= 59
  /\ second t = 0.

(** A number below 100 in two decimal digits. *)
Definition two_digit (n : nat) : list ascii :=
  [ascii_of_nat (48 + n / 10); ascii_of_nat (48 + n mod 10)].

(** The hour on the twelve-hour dial. *)
Definition hour12 (h : nat) : nat :=
  if h mod 12 =? 0 then 12 else h mod 12.

(** [datetime.strftime] with the log format: every field in two
    digits, zero padded, and the meridiem in upper case. *)
Definition render_stamp (t : datetime) : string :=
  string_of_list_ascii
    (two_digit (month t) ++ "/"%char :: two_digit (day t) ++ "/"%char
       :: two_digit (year t mod 100) ++ " "%char
       :: two_digit (hour12 (hour t)) ++ ":"%char
       :: two_digit (minute t) ++ " "%char
       :: (if hour t <? 12 then chars "AM" else chars "PM"))%list.

(** The text of a group reads as a number between [lo] and [hi]. *)
Definition int_between (lo hi : nat) (t : list ascii) : bool :=
  match int t with
  | Some n => (lo <=? n) && (n <=? hi)
  | None => false
  end.

(** The groups of a match of the log format, last group first. *)
Definition log_groups (mo d y h mi ap : list ascii) : groups :=
  [("p", ap); ("M", mi); ("I", h); ("y", y); ("d", d); ("m", mo)].

(** The half of the day a meridiem stands for, in hours. *)
Definition meridiem_offset (ap : list ascii) : nat :=
  if list_eq_dec ascii_dec (map lower ap) (chars "pm") then 12 else 0.

(** From [t0] on, every look finds a displayed match. *)
Definition visible_from (b : browser) (css : selector) (t0 : nat) : Prop :=
  forall t, t0 <= t ->
    exists e, visibility_of_element_located b css t = inr (Some e).

(** A page whose link is in the document from the start and is shown
    three seconds in; a look takes 20 ms. *)
Definition late_browser : browser :=
  {| page_at := fun _ => Node "html" [] [] "" [sample_anchor];
     displayed_at := fun t _ => 3000 <=? t;
     lookup_cost := fun _ => 20 |}.

(** * Properties *)

(** ** The layered fixtures *)

Ltac reduce_fixture :=
  cbv beta iota zeta delta
    [with_driver with_journal with_user_data with_project_url
     driver_opts site_root driver user_data project_url journal
     fst snd] in *;
  cbn [app] in *.

Ltac split_returns w :=
  repeat match goal with
         | |- context [if returns w ?j ?c then _ else _] =>
             let E := fresh "E" in
             destruct (returns w j c) eqn:E; reduce_fixture
         | H : context [if returns w ?j ?c then _ else _] |- _ =>
             let E := fresh "E" in
             destruct (returns w j c) eqn:E; reduce_fixture
         end.

Ltac unfold_fixture :=
  unfold run_journal, run, setup_failed, setup_completed, setUp, tearDown,
    ProjectSmokeTest_setUp, ProjectSmokeTest_tearDown,
    UserSmokeTest_setUp, UserSmokeTest_tearDown,
    SmokeTest_setUp, SmokeTest_tearDown, test_method,
    launch_driver, create_user, login, logout, create_project,
    goto_project, delete_project, driver_quit, driver_get,
    unit_call, outside, getattr, modify, bind, fresh_instance in *;
  reduce_fixture.

Lemma failed_setup_runs_nothing_more (w : world) (l : layer)
  (opts : option launch_opts) (root : option string) :
  setup_failed w l (fresh_instance opts root) ->
  let j := run_journal w l (fresh_instance opts root) in
  returned is_test_method j = false /\ teardown_calls j = [] /\ release_calls j = 0.
Proof.
  intros [e [s1 H]].
  destruct l, opts; unfold_fixture; split_returns w;
    try discriminate; repeat split; reflexivity.
Qed.

Lemma failed_setup_never_calls_test (w : world) (l : layer)
  (opts : option launch_opts) (root : option string) :
  setup_failed w l (fresh_instance opts root) ->
  existsb is_test_method (calls (run_journal w l (fresh_instance opts root)))
  = false.
Proof.
  intros [e [s1 H]].
  destruct l, opts; unfold_fixture; split_returns w;
    try discriminate; reflexivity.
Qed.

Lemma raise_ends_teardown_run (w : world) (l : layer)
  (opts : option launch_opts) (root : option string) :
  raise_ends_teardown (run_journal w l (fresh_instance opts root)) = true.
Proof.
  destruct l, opts; unfold_fixture; split_returns w; reflexivity.
Qed.

Lemma completed_setup_then_teardown (w : world) (l : layer)
  (opts : option launch_opts) (root : option string) :
  setup_completed w l (fresh_instance opts root) ->
  let j := run_journal w l (fresh_instance opts root) in
  mirror_of_completed j = mirror l
  /\ prefix_of (teardown_calls j) (mirror l)
  /\ acquire_calls j = 1
  /\ (teardown_clean j = true -> teardown_calls j = mirror l).
Proof.
  intros [s1 H].
  destruct l, opts; unfold_fixture; split_returns w; try discriminate;
    unfold prefix_of;
    (split; [reflexivity | split; [ | split; [reflexivity | ] ] ]);
    try (intros; first [reflexivity | discriminate]);
    first [ now exists [] | now exists [Quit] | now exists [Logout; Quit] ].
Qed.

(** C1, as stated, fails: when the login is refused the session that
    was just launched is never quit, so the completed session stage
    is not torn down and acquisitions outnumber releases. *)
Lemma refused_login_leaks_session :
  ~ cleanup_after_failed_setup (failing is_login (sample_page ""))
      UserSmokeTest (fresh_instance None None).
Proof.
  unfold cleanup_after_failed_setup. intros [_ H].
  vm_compute in H. discriminate.
Qed.

(** C1, amended: when a layer's setup fails the test method never
    runs (it is not even called) and no teardown step runs, so no
    session is released; when the setup completes exactly one
    session was acquired and, whatever the test method does, exactly
    one is released as soon as every teardown step returns
    normally. *)
Theorem failed_setup_skips_teardown (w : world) (l : layer)
  (opts : option launch_opts) (root : option string) :
  let s := fresh_instance opts root in
  let j := run_journal w l s in
  (setup_failed w l s ->
     returned is_test_method j = false
     /\ teardown_calls j = []
     /\ release_calls j = 0
     /\ existsb is_test_method (calls j) = false)
  /\ (setup_completed w l s ->
        acquire_calls j = 1
        /\ (teardown_clean j = true -> release_calls j = 1)).
Proof.
  cbv zeta. split; intro H.
  - destruct (failed_setup_runs_nothing_more w l opts root H) as (H1 & H2 & H3).
    repeat split; try assumption.
    now apply failed_setup_never_calls_test.
  - destruct (completed_setup_then_teardown w l opts root H) as (_ & _ & Ha & Hc).
    split; [exact Ha | ].
    intro Hclean. specialize (Hc Hclean).
    unfold release_calls. unfold teardown_calls in Hc.
    assert (Hq : filter is_quit (calls (run_journal w l (fresh_instance opts root)))
                 = filter is_quit (mirror l)).
    { rewrite <- Hc. generalize (calls (run_journal w l (fresh_instance opts root))).
      intro cs. induction cs as [ | c cs IH]; [reflexivity | ].
      destruct c; cbn; try exact IH; now rewrite IH. }
    rewrite Hq. now destruct l.
Qed.

Lemma failed_setup_skips_teardown_witness :
  (returned is_test_method
     (run_journal (failing is_login (sample_page "")) UserSmokeTest
        (fresh_instance None None)) = false
   /\ teardown_calls
        (run_journal (failing is_login (sample_page "")) UserSmokeTest
           (fresh_instance None None)) = []
   /\ release_calls
        (run_journal (failing is_login (sample_page "")) UserSmokeTest
           (fresh_instance None None)) = 0
   /\ existsb is_test_method
        (calls (run_journal (failing is_login (sample_page "")) UserSmokeTest
                  (fresh_instance None None))) = false)
  /\ (acquire_calls
        (run_journal (failing is_test_method (sample_page "")) ProjectSmokeTest
           (fresh_instance None None)) = 1
      /\ release_calls
           (run_journal (failing is_test_method (sample_page "")) ProjectSmokeTest
              (fresh_instance None None)) = 1).
Proof.
  split.
  - apply (proj1 (failed_setup_skips_teardown
                    (failing is_login (sample_page "")) UserSmokeTest None None)).
    eexists. eexists. vm_compute. reflexivity.
  - destruct (proj2 (failed_setup_skips_teardown
                    (failing is_test_method (sample_page "")) ProjectSmokeTest
                    None None)) as [Ha Hr].
    + eexists. vm_compute. reflexivity.
    + split; [exact Ha | apply Hr; vm_compute; reflexivity].
Defined.

(** C2, as stated, fails: when the project deletion raises, logout
    and quit are skipped although the user and session stages had
    completed. *)
Lemma failed_deletion_skips_logout_and_quit :
  ~ teardown_mirrors_setup (failing is_delete_project (sample_page ""))
      ProjectSmokeTest (fresh_instance None None).
Proof.
  unfold teardown_mirrors_setup. vm_compute. discriminate.
Qed.

(** C2, amended: the teardown steps that run always form an initial
    segment of the reverse of the completed setup stages (project
    deletion, logout, session release); a step that raises skips the
    remaining ones, so no teardown step follows one that raised; a
    failed setup runs none; and when the setup completed and every
    teardown step returned normally they are exactly that reverse,
    with nothing skipped. *)
Theorem teardown_follows_mirror (w : world) (l : layer)
  (opts : option launch_opts) (root : option string) :
  let s := fresh_instance opts root in
  let j := run_journal w l s in
  prefix_of (teardown_calls j) (mirror_of_completed j)
  /\ raise_ends_teardown j = true
  /\ (setup_failed w l s -> teardown_calls j = [])
  /\ (setup_completed w l s -> teardown_clean j = true ->
        teardown_calls j = mirror l /\ mirror_of_completed j = mirror l).
Proof.
  cbv zeta.
  split; [ | split; [apply raise_ends_teardown_run | split] ].
  - destruct (setUp w l (fresh_instance opts root)) as [[e | []] s1] eqn:Hs.
    + assert (Hf : setup_failed w l (fresh_instance opts root))
        by (now exists e, s1).
      destruct (failed_setup_runs_nothing_more w l opts root Hf) as (_ & Ht & _).
      rewrite Ht. now eexists.
    + assert (Hc : setup_completed w l (fresh_instance opts root))
        by (now exists s1).
      destruct (completed_setup_then_teardown w l opts root Hc) as (Hm & Hp & _).
      now rewrite Hm.
  - intro Hf. apply (failed_setup_runs_nothing_more w l opts root Hf).
  - intros Hc Hclean.
    destruct (completed_setup_then_teardown w l opts root Hc) as (Hm & _ & _ & Hall).
    split; [now apply Hall | exact Hm].
Qed.

Lemma teardown_follows_mirror_witness :
  teardown_calls (run_journal (failing is_login (sample_page "")) UserSmokeTest
                    (fresh_instance None None)) = []
  /\ teardown_calls (run_journal (calm (sample_page "")) ProjectSmokeTest
                       (fresh_instance None None))
     = [DeleteProject; Logout; Quit]
  /\ mirror_of_completed (run_journal (calm (sample_page "")) ProjectSmokeTest
                            (fresh_instance None None))
     = [DeleteProject; Logout; Quit].
Proof.
  split.
  - apply (proj1 (proj2 (proj2
             (teardown_follows_mirror (failing is_login (sample_page ""))
                UserSmokeTest None None)))).
    eexists. eexists. vm_compute. reflexivity.
  - apply (proj2 (proj2 (proj2
             (teardown_follows_mirror (calm (sample_page "")) ProjectSmokeTest
                None None)))).
    + eexists. vm_compute. reflexivity.
    + vm_compute. reflexivity.
Defined.


(** C9: the session is released by [quit]: [SmokeTest.tearDown] on an
    instance that holds a driver is exactly one [Quit] call, no
    [tearDown] of any layer ever issues [Close], and a [tearDown]
    that returns normally has [Quit] as its last call. *)
Theorem release_is_full_quit (w : world) (l : layer) (s : instance) (d : nat) :
  SmokeTest_tearDown w (with_driver d s) = unit_call w Quit (with_driver d s)
  /\ exists added,
       journal (snd (tearDown w l s)) = (journal s ++ added)%list
       /\ existsb is_close (calls added) = false
       /\ match fst (tearDown w l s) with
          | inr _ => exists before, calls added = (before ++ [Quit])%list
          | inl _ => True
          end.
Proof.
  split; [reflexivity | ].
  destruct s as [o r dr u p j].
  destruct l; unfold_fixture; destruct dr; reduce_fixture;
    split_returns w;
    repeat rewrite <- app_assoc; cbn [app];
    try (now (exists []; split; [now rewrite app_nil_r | split; [reflexivity | exact I] ]));
    (eexists; split; [reflexivity | split; [reflexivity | ] ]; cbn;
     first [ exact I
           | now exists []
           | now exists [Logout]
           | now exists [DeleteProject; Logout] ]).
Qed.

(** ** Navigation *)

Lemma getitem_dict_missing {V} (d : list (string * V)) (key : string) :
  ~ In key (map fst d) -> getitem_dict d key = inl (KeyError key).
Proof.
  induction d as [ | [k v] d IH]; cbn; intro H; [reflexivity | ].
  destruct (String.eqb_spec k key) as [-> | _].
  - exfalso. apply H. now left.
  - apply IH. intro Hin. apply H. now right.
Qed.

Lemma drop_last_snoc (s : string) (c : ascii) :
  drop_last (s ++ String c EmptyString) = s.
Proof.
  induction s as [ | a s IH]; [reflexivity | ].
  cbn [String.append drop_last]. rewrite IH.
  destruct s; reflexivity.
Qed.

Lemma requested_snoc (j : list event) (c : call) (ok : bool) :
  requested (j ++ [(c, ok)])
  = (requested j ++ match c with Get url => [url] | _ => [] end)%list.
Proof.
  induction j as [ | [c' ok'] j IH]; cbn.
  - destruct c; reflexivity.
  - destruct c'; cbn; rewrite IH; reflexivity.
Qed.

Lemma ends_slash_cons (a : ascii) (s : string) :
  ends_slash (String a s)
  = match s with EmptyString => Ascii.eqb a "/" | _ => ends_slash s end.
Proof. destruct s; reflexivity. Qed.

Lemma double_slash_app (x y : string) :
  double_slash (x ++ y)
  = double_slash x || (ends_slash x && starts_slash y) || double_slash y.
Proof.
  induction x as [ | a x IH]; [reflexivity | ].
  cbn [String.append double_slash]. rewrite IH, ends_slash_cons.
  destruct x as [ | b x].
  - cbn. destruct (Ascii.eqb a "/"), (starts_slash y), (double_slash y); reflexivity.
  - assert (Hs : starts_slash (String b x ++ y) = starts_slash (String b x))
      by reflexivity.
    rewrite Hs.
    destruct (Ascii.eqb a "/"), (starts_slash (String b x)),
      (double_slash (String b x)), (ends_slash (String b x)),
      (starts_slash y), (double_slash y); reflexivity.
Qed.

(** C3: a page key outside the path table raises [KeyError] naming
    that key, and the instance (with its journal of browser calls) is
    left exactly as it was: nothing is requested from the browser. *)
Theorem goto_unknown_page (w : world) (s : instance) (d : nat)
  (page : string) (args : list pyobj) :
  driver s = Some d ->
  ~ In page (map fst (build_path args)) ->
  goto w page args s = (inl (KeyError page), s)
  /\ requested (journal (snd (goto w page args s))) = requested (journal s).
Proof.
  intros Hd Hp.
  assert (H : goto w page args s = (inl (KeyError page), s)).
  { unfold goto, bind, getattr, lift. rewrite Hd.
    now rewrite (getitem_dict_missing _ _ Hp). }
  split; [exact H | now rewrite H].
Qed.

Lemma goto_unknown_page_witness :
  goto (calm (sample_page "")) "unknown-key" [] ready
  = (inl (KeyError "unknown-key"), ready)
  /\ requested (journal (snd (goto (calm (sample_page "")) "unknown-key" [] ready)))
     = requested (journal ready).
Proof.
  apply (goto_unknown_page (calm (sample_page "")) ready 1 "unknown-key" []).
  - reflexivity.
  - cbn. intros [H | [H | [H | [H | []]]]]; discriminate H.
Defined.

(** The statement holds at the example the specification gives. *)
Example file_address_of_report :
  file_address_as_claimed (calm (sample_page "")) ready
    "http://localhost:5000/project/abc" "report.csv".
Proof. intros _. split; reflexivity. Qed.

(** C4, as stated, fails: the name is appended as it is, so the file
    name [/report.csv] gives an address ending in
    [/files//report.csv], a doubled slash that is not in the project
    address. *)
Lemma slash_in_name_doubles_slash :
  ~ file_address_as_claimed (calm (sample_page "")) ready
      "http://localhost:5000/project/abc" "/report.csv".
Proof.
  unfold file_address_as_claimed. intro H.
  destruct (H eq_refl) as [_ Hd]. vm_compute in Hd. discriminate Hd.
Qed.

(** C4, amended: for a project address [base/] and a file name,
    [goto] with page [file] sends the browser to [base/files/name]:
    the trailing slash of the project address is the only separator
    before [files].  The joining adds single slashes only: the
    address has a doubled slash exactly when [base] has one or ends
    in a slash, or the name has one or starts with a slash. *)
Theorem goto_file_address (w : world) (s : instance) (d : nat)
  (base name : string) :
  driver s = Some d ->
  project_url s = Some (base ++ "/") ->
  let target := base ++ "/files/" ++ name in
  goto w "file" [PyStr name] s = unit_call w (Get target) s
  /\ requested (journal (snd (goto w "file" [PyStr name] s)))
     = (requested (journal s) ++ [target])%list
  /\ double_slash target
     = double_slash base || ends_slash base || starts_slash name
       || double_slash name.
Proof.
  intros Hd Hp target.
  assert (H : goto w "file" [PyStr name] s = unit_call w (Get target) s).
  { unfold goto, bind, getattr, lift, build_path. rewrite Hd. cbn.
    unfold bind, getattr, lift. rewrite Hp. cbn.
    rewrite drop_last_snoc. reflexivity. }
  split; [exact H | split].
  - rewrite H. unfold unit_call, outside.
    destruct (returns w (journal s) (Get target)); cbn;
      now rewrite requested_snoc.
  - unfold target. rewrite double_slash_app.
    change (double_slash ("/files/" ++ name))
      with (double_slash ("/files" ++ "/" ++ name)).
    rewrite double_slash_app. cbn.
    destruct (double_slash base), (ends_slash base), (starts_slash name),
      (double_slash name); reflexivity.
Qed.

Lemma goto_file_address_witness :
  goto (calm (sample_page "")) "file" [PyStr "report.csv"] ready
  = unit_call (calm (sample_page ""))
      (Get "http://localhost:5000/project/abc/files/report.csv") ready
  /\ requested (journal (snd (goto (calm (sample_page "")) "file"
                                [PyStr "report.csv"] ready)))
     = (requested (journal ready)
        ++ [ "http://localhost:5000/project/abc/files/report.csv" ])%list
  /\ double_slash "http://localhost:5000/project/abc/files/report.csv"
     = double_slash "http://localhost:5000/project/abc"
       || ends_slash "http://localhost:5000/project/abc"
       || starts_slash "report.csv" || double_slash "report.csv".
Proof.
  exact (goto_file_address (calm (sample_page "")) ready 1
           "http://localhost:5000/project/abc" "report.csv" eq_refl eq_refl).
Defined.

(** C10: only the rule of the selected page runs.  For [dashboard],
    [files] and [user-dashboard] the outcome is the same whatever
    extra positional arguments are passed, and with the attribute the
    rule reads in place the browser is sent to the address, even when
    another rule would raise; [file] without arguments raises
    [IndexError] and requests nothing. *)
Theorem goto_runs_selected_rule_only (w : world) (s : instance)
  (args : list pyobj) :
  goto w "dashboard" args s = goto w "dashboard" [] s
  /\ goto w "files" args s = goto w "files" [] s
  /\ goto w "user-dashboard" args s = goto w "user-dashboard" [] s
  /\ (forall d p, driver s = Some d -> project_url s = Some p ->
        goto w "dashboard" args s = unit_call w (Get p) s
        /\ goto w "files" args s = unit_call w (Get (drop_last p ++ "/files")) s
        /\ goto w "file" [] s = (inl IndexError, s)
        /\ requested (journal (snd (goto w "file" [] s))) = requested (journal s))
  /\ (forall d r, driver s = Some d -> site_root s = Some r ->
        goto w "user-dashboard" args s = unit_call w (Get (r ++ "/dashboard")) s).
Proof.
  repeat split; try reflexivity; intros;
    unfold goto, bind, getattr, lift, build_path;
    match goal with
    | Hd : driver s = Some _, Ha : _ s = Some _ |- _ =>
        rewrite Hd; cbn; unfold bind, getattr, lift; rewrite ?Ha; cbn;
        reflexivity
    end.
Qed.

Lemma goto_runs_selected_rule_only_witness :
  (goto (calm (sample_page "")) "dashboard" [PyInt 7; PyNone] ready
   = unit_call (calm (sample_page ""))
       (Get "http://localhost:5000/project/abc/") ready
   /\ goto (calm (sample_page "")) "file" [] ready = (inl IndexError, ready))
  /\ goto (calm (sample_page "")) "user-dashboard" [PyInt 7; PyNone] ready
     = unit_call (calm (sample_page ""))
         (Get "http://localhost:5000/dashboard") ready.
Proof.
  destruct (goto_runs_selected_rule_only (calm (sample_page "")) ready
              [PyInt 7; PyNone]) as (_ & _ & _ & Hp & Hr).
  destruct (Hp 1 "http://localhost:5000/project/abc/" eq_refl eq_refl)
    as (H1 & _ & H3 & _).
  split; [split; [exact H1 | exact H3] | ].
  exact (Hr 1 "http://localhost:5000" eq_refl eq_refl).
Defined.

(** ** The activity log *)

Lemma element_ind' (P : element -> Prop) :
  (forall t c a x kids, Forall P kids -> P (Node t c a x kids)) ->
  forall e, P e.
Proof.
  intro H. fix IH 1. intros [t c a x kids]. apply H.
  induction kids as [ | k kids IHk]; constructor; [apply IH | exact IHk].
Qed.

Lemma select_from_node (sel : selector) (ancs : list placed) (first : bool)
  (t : string) (c : list string) (a : list (string * string)) (x : string)
  (kids : list element) :
  select_from sel ancs first (Node t c a x kids)
  = ((if selector_matches sel ancs (Node t c a x kids, first)
      then [Node t c a x kids] else [])
     ++ select_below sel ((Node t c a x kids, first) :: ancs) [] kids)%list.
Proof.
  cbn [select_from]. f_equal.
  generalize (@nil string) as seen.
  generalize ((Node t c a x kids, first) :: ancs) as up.
  induction kids as [ | k kids IH]; intros up seen; [reflexivity | ].
  cbn [select_below]. now rewrite <- IH.
Qed.

Lemma document_order_node (t : string) (c : list string)
  (a : list (string * string)) (x : string) (kids : list element) :
  document_order (Node t c a x kids)
  = Node t c a x kids :: flat_map document_order kids.
Proof.
  reflexivity.
Qed.

Lemma anchor_matches (ancs : list placed) (p : placed) :
  selector_matches css_anchor ancs p = String.eqb (tag_of (fst p)) "a".
Proof.
  change (selector_matches css_anchor ancs p)
    with (String.eqb "a" (tag_of (fst p)) && true && true && true).
  rewrite !andb_true_r. apply String.eqb_sym.
Qed.

Lemma anchors_in_document_order (e : element) :
  forall ancs first,
    select_from css_anchor ancs first e
    = filter (fun x => String.eqb (tag_of x) "a") (document_order e).
Proof.
  induction e as [t c a x kids IH] using element_ind'. intros ancs first.
  rewrite select_from_node, document_order_node, anchor_matches.
  cbn [filter fst tag_of].
  assert (Hk : forall ancs' seen,
             select_below css_anchor ancs' seen kids
             = filter (fun y => String.eqb (tag_of y) "a")
                 (flat_map document_order kids)).
  { induction IH as [ | k kids Hk _ IHk]; intros ancs' seen; [reflexivity | ].
    cbn [select_below flat_map]. now rewrite filter_app, Hk, IHk. }
  rewrite Hk. now destruct (String.eqb t "a").
Qed.

Lemma find_anchors_embedded_links (e : element) :
  find_elements_by_css_selector e css_anchor = embedded_links e.
Proof.
  unfold find_elements_by_css_selector, embedded_links.
  generalize (@nil string) as seen. generalize [(e, true)] as ancs.
  induction (children_of e) as [ | k kids IH]; intros ancs seen; [reflexivity | ].
  cbn [select_below flat_map].
  now rewrite filter_app, anchors_in_document_order, IH.
Qed.

Lemma append_hrefs_map (css_url : list element) :
  append_hrefs css_url = map (fun x => get_attribute x "href") css_url.
Proof.
  unfold append_hrefs.
  assert (H : forall acc,
             fold_left (fun log_url x => (log_url ++ [get_attribute x "href"])%list)
                       css_url acc
             = (acc ++ map (fun x => get_attribute x "href") css_url)%list).
  { induction css_url as [ | x l IH]; intro acc; cbn.
    - now rewrite app_nil_r.
    - now rewrite IH, <- app_assoc. }
  exact (H []).
Qed.

(** C5: a fragment whose entry reads "Created file report.csv" with
    exactly one link to /project/abc/files/report.csv and whose
    timestamp reads "03/14/24 02:15 PM" parses to a [LogEntry] with
    [log_time] 2024-03-14 14:15:00 and [log_url] that one address. *)
Theorem sample_fragment_parses (dl dd a dt : element) :
  first_or_raise (find_elements_by_css_selector dl css_first_dd) = inr dd ->
  text_of dd = "Created file report.csv" ->
  find_elements_by_css_selector dd css_anchor = [a] ->
  get_attribute a "href" = Some "/project/abc/files/report.csv" ->
  first_or_raise (find_elements_by_css_selector dl css_first_dt) = inr dt ->
  text_of dt = "03/14/24 02:15 PM" ->
  LogEntry_init dl
  = inr {| log_text := "Created file report.csv";
           log_url := [Some "/project/abc/files/report.csv"];
           log_time := {| year := 2024; month := 3; day := 14;
                          hour := 14; minute := 15; second := 0 |} |}.
Proof.
  intros Hdd Htext Ha Hhref Hdt Hstamp.
  unfold LogEntry_init. rewrite Hdd, Hdt, Ha, Htext, Hstamp.
  unfold append_hrefs. cbn [fold_left app]. rewrite Hhref.
  reflexivity.
Qed.

Lemma sample_fragment_parses_witness :
  LogEntry_init (sample_log "03/14/24 02:15 PM")
  = inr {| log_text := "Created file report.csv";
           log_url := [Some "/project/abc/files/report.csv"];
           log_time := {| year := 2024; month := 3; day := 14;
                          hour := 14; minute := 15; second := 0 |} |}.
Proof.
  apply (sample_fragment_parses (sample_log "03/14/24 02:15 PM")
           sample_entry sample_anchor
           (Node "dt" [] [] "03/14/24 02:15 PM" []));
    reflexivity.
Defined.

(** C7: when the page shows a log fragment whose timestamp parses,
    [get_log] returns a [LogEntry] holding the text of the entry, the
    [href] of every link embedded in it, in document order (the empty
    list when there is none), and the parsed timestamp; the instance
    is left unchanged. *)
Theorem get_log_reads_fragment (w : world) (s : instance) (d : nat)
  (dl dd dt : element) (t : datetime) :
  driver s = Some d ->
  first_or_raise (document_find_elements (rendered w (journal s)) css_log_list)
  = inr dl ->
  first_or_raise (find_elements_by_css_selector dl css_first_dd) = inr dd ->
  first_or_raise (find_elements_by_css_selector dl css_first_dt) = inr dt ->
  strptime (text_of dt) log_format = inr t ->
  get_log w s
  = (inr {| log_text := text_of dd;
            log_url := map (fun a => get_attribute a "href") (embedded_links dd);
            log_time := t |},
     s).
Proof.
  intros Hd Hdl Hdd Hdt Ht.
  unfold get_log, bind, getattr. rewrite Hd, Hdl.
  unfold LogEntry_init. rewrite Hdd, Hdt, Ht.
  now rewrite append_hrefs_map, find_anchors_embedded_links.
Qed.

Lemma get_log_reads_fragment_witness :
  get_log (calm (sample_page "3/4/99 12:05 am")) ready
  = (inr {| log_text := "Created file report.csv";
            log_url := [Some "/project/abc/files/report.csv"];
            log_time := {| year := 1999; month := 3; day := 4;
                           hour := 0; minute := 5; second := 0 |} |},
     ready).
Proof.
  apply (get_log_reads_fragment (calm (sample_page "3/4/99 12:05 am")) ready 1
           (sample_log "3/4/99 12:05 am") sample_entry
           (Node "dt" [] [] "3/4/99 12:05 am" []));
    reflexivity.
Defined.

(** *** The timestamp format *)

Lemma every_ascii (P : ascii -> bool) :
  forallb P all_ascii = true -> forall x, P x = true.
Proof.
  intros H x. rewrite forallb_forall in H. apply H.
  rewrite <- (ascii_nat_embedding x). apply in_map, in_seq.
  pose proof (nat_ascii_bounded x). lia.
Qed.

Lemma every_ascii_if (f check : ascii -> bool) :
  forallb (fun a => if f a then check a else true) all_ascii = true ->
  forall a, f a = true -> check a = true.
Proof.
  intros H a Ha.
  pose proof (every_ascii _ H a) as Hc. cbv beta in Hc.
  now rewrite Ha in Hc.
Qed.

Lemma every_ascii_pair (f g : ascii -> bool) (check : ascii -> ascii -> bool) :
  forallb (fun a => if f a
                    then forallb (fun b => if g b then check a b else true)
                                 all_ascii
                    else true) all_ascii = true ->
  forall a b, f a = true -> g b = true -> check a b = true.
Proof.
  intros H a b Ha Hb.
  pose proof (every_ascii_if f _ H a Ha) as Hc.
  exact (every_ascii_if g _ Hc b Hb).
Qed.


Lemma many_sound {A} (cs s : list ascii) (k : list ascii -> option A) (a : A) :
  many cs s k = Some a ->
  exists s1 s2, s = (s1 ++ s2)%list
                /\ Forall (fun y => in_class cs y = true) s1
                /\ k s2 = Some a.
Proof.
  induction s as [ | x s IH]; cbn [many]; intro H.
  - exists [], []. auto.
  - destruct (in_class cs x) eqn:E.
    + destruct (many cs s k) as [a0 | ] eqn:Hm.
      * injection H as <-.
        destruct (IH eq_refl) as (s1 & s2 & -> & Hall & Hk).
        exists (x :: s1), s2. auto.
      * exists [], (x :: s). auto.
    + exists [], (x :: s). auto.
Qed.



Lemma pattern_log_format : pattern false (chars log_format) = Some log_regex.
Proof. reflexivity. Qed.

Lemma lang_cat_inv (r1 r2 : regex) (s : list ascii) :
  in_lang (Cat r1 r2) s ->
  exists s1 s2, s = (s1 ++ s2)%list /\ in_lang r1 s1 /\ in_lang r2 s2.
Proof. inversion 1; subst; eauto. Qed.

Lemma lang_alt_inv (r1 r2 : regex) (s : list ascii) :
  in_lang (Alt r1 r2) s -> in_lang r1 s \/ in_lang r2 s.
Proof. inversion 1; subst; auto. Qed.

Lemma lang_chr_inv (c : ascii) (s : list ascii) :
  in_lang (Chr c) s -> exists x, s = [x] /\ same_char c x = true.
Proof. inversion 1; subst; eauto. Qed.

Lemma lang_class_inv (cs s : list ascii) :
  in_lang (Class cs) s -> exists x, s = [x] /\ in_class cs x = true.
Proof. inversion 1; subst; eauto. Qed.

Lemma lang_many1_inv (cs s : list ascii) :
  in_lang (Many1 cs) s ->
  s <> [] /\ Forall (fun y => in_class cs y = true) s.
Proof. inversion 1; subst; split; [discriminate | now constructor]. Qed.

Lemma lang_group_inv (name : string) (r : regex) (s : list ascii) :
  in_lang (Group name r) s -> in_lang r s.
Proof. inversion 1; subst; auto. Qed.

Lemma lang_eps_inv (s : list ascii) : in_lang Eps s -> s = [].
Proof. inversion 1; reflexivity. Qed.

Ltac invert_lang :=
  repeat match goal with
         | H : in_lang (Cat _ _) _ |- _ =>
             apply lang_cat_inv in H as (? & ? & -> & ? & ?)
         | H : in_lang (Alt _ _) _ |- _ =>
             apply lang_alt_inv in H as [? | ?]
         | H : in_lang (Chr _) _ |- _ =>
             apply lang_chr_inv in H as (? & -> & ?)
         | H : in_lang (Class _) _ |- _ =>
             apply lang_class_inv in H as (? & -> & ?)
         | H : in_lang (Group _ _) _ |- _ => apply lang_group_inv in H
         | H : in_lang Eps _ |- _ => apply lang_eps_inv in H; subst
         end.

(** A separator of the format matches only itself. *)
Lemma separator_exact (c x : ascii) :
  In c ["/"%char; ":"%char; " "%char] -> same_char c x = true -> x = c.
Proof.
  intros Hc H. apply Ascii.eqb_eq. revert x H.
  destruct Hc as [<- | [<- | [<- | []]]];
    apply every_ascii_if; vm_compute; reflexivity.
Qed.

Lemma blank_exact (x : ascii) : in_class blank x = true -> In x blank.
Proof.
  intro H.
  assert (Hb : existsb (Ascii.eqb x) blank = true)
    by (revert x H; apply every_ascii_if; vm_compute; reflexivity).
  apply existsb_exists in Hb as (c & Hc & E).
  apply Ascii.eqb_eq in E. now subst.
Qed.

(** Field checks by enumeration of the one or two characters. *)
Ltac check_field :=
  cbn [app];
  match goal with
  | Ha : ?f ?a = true, Hb : ?g ?b = true |- ?check [?a; ?b] = true =>
      revert a b Ha Hb;
      apply (every_ascii_pair f g (fun u v => check [u; v]));
      vm_compute; reflexivity
  | Ha : ?f ?a = true |- ?check [?a] = true =>
      revert a Ha;
      apply (every_ascii_if f (fun u => check [u]));
      vm_compute; reflexivity
  end.





Lemma ampm_meridiem (t : list ascii) : in_lang re_ampm t -> meridiem t.
Proof.
  unfold re_ampm, meridiem. cbn [literal chars list_ascii_of_string].
  intro H. invert_lang; [left | right]; cbn [app map];
    unfold same_char in *;
    repeat match goal with
           | E : Ascii.eqb _ _ = true |- _ => apply Ascii.eqb_eq in E
           end;
    repeat match goal with
           | E : lower _ = lower ?y |- _ => rewrite <- E; clear E
           end;
    reflexivity.
Qed.

Lemma blanks_of_many1 (t : list ascii) : in_lang (Many1 blank) t -> blanks t.
Proof.
  intro H. apply lang_many1_inv in H as [Hne Hall]. split; [exact Hne | ].
  eapply Forall_impl; [ | exact Hall]. intros c Hc. now apply blank_exact.
Qed.

Lemma separator_of_chr (c : ascii) (t : list ascii) :
  In c ["/"%char; ":"%char; " "%char] -> in_lang (Chr c) t -> t = [c].
Proof.
  intros Hc H. apply lang_chr_inv in H as (x & -> & Hx).
  now rewrite (separator_exact c x Hc Hx).
Qed.




(** The parser at work: single digits, runs of blanks and lower-case
    [am] are read; midnight is hour 0; years 69-99 fall in the 1900s;
    a day that does not exist and trailing text are refused. *)
Example strptime_lenient :
  strptime "3/4/99  12:05 am" log_format
  = inr {| year := 1999; month := 3; day := 4;
           hour := 0; minute := 5; second := 0 |}.
Proof. reflexivity. Qed.

Example strptime_off_format :
  strptime off_format_stamp log_format
  = inr {| year := 2024; month := 3; day := 4;
           hour := 14; minute := 5; second := 0 |}.
Proof. reflexivity. Qed.

Example strptime_pivot_year :
  strptime "12/31/68 11:59 PM" log_format
  = inr {| year := 2068; month := 12; day := 31;
           hour := 23; minute := 59; second := 0 |}
  /\ strptime "01/01/69 12:00 PM" log_format
     = inr {| year := 1969; month := 1; day := 1;
              hour := 12; minute := 0; second := 0 |}.
Proof. split; reflexivity. Qed.

Example strptime_refuses :
  strptime "02/30/24 02:15 PM" log_format = inl ValueError
  /\ strptime "03/14/24 02:15 PM today" log_format = inl ValueError
  /\ strptime "13/14/24 02:15 PM" log_format = inl ValueError
  /\ strptime "03/14/2024 02:15 PM" log_format = inl ValueError
  /\ strptime "03/14/24 14:15" log_format = inl ValueError.
Proof. repeat split; reflexivity. Qed.


(** The statement holds at the example the specification gives. *)
Example off_format_date_raises :
  off_format_stamp_raises (calm (sample_page "2024-03-14")) ready.
Proof.
  intros dl dt _ _ _. exists ValueError. reflexivity.
Qed.




(** ** Waiting for an element *)

Lemma poll_positive : 0 < POLL_FREQUENCY.
Proof. unfold POLL_FREQUENCY. lia. Qed.

(** With a round left for every polling period up to the deadline,
    the loop reaches an outcome. *)
Lemma until_loop_total (b : browser) (css : selector) (end_time : nat) :
  forall rounds now,
    1 <= rounds ->
    end_time < now + rounds * POLL_FREQUENCY ->
    until_loop rounds b css end_time now <> None.
Proof.
  induction rounds as [ | rounds IH]; intros now Hr Hd; [lia | ].
  cbn [until_loop].
  assert (Hagain :
            (if end_time <? now + lookup_cost b now + POLL_FREQUENCY
             then Some (@inl exn element TimeoutException,
                        now + lookup_cost b now + POLL_FREQUENCY)
             else until_loop rounds b css end_time
                    (now + lookup_cost b now + POLL_FREQUENCY)) <> None).
  { destruct (Nat.ltb_spec end_time (now + lookup_cost b now + POLL_FREQUENCY))
      as [_ | Hle]; [discriminate | ].
    apply IH; [ | lia].
    destruct rounds; [ | lia]. lia. }
  destruct (visibility_of_element_located b css now) as [[] | [e | ]];
    first [exact Hagain | discriminate].
Qed.

(** While nothing visible ever matches, the loop ends in a timeout,
    after the deadline and at most one look and one polling period
    past it. *)
Lemma until_loop_times_out (b : browser) (css : selector)
  (end_time delta : nat) :
  never_visible b css ->
  lookup_within b delta ->
  forall rounds now out,
    now <= end_time ->
    until_loop rounds b css end_time now = Some out ->
    exists t, out = (inl TimeoutException, t)
              /\ end_time < t <= end_time + POLL_FREQUENCY + delta.
Proof.
  intros Hnever Hcost.
  induction rounds as [ | rounds IH]; intros now out Hnow H; [discriminate | ].
  cbn [until_loop] in H.
  pose proof (Hnever now) as Hn. pose proof (Hcost now) as Hc.
  assert (Hagain :
            (if end_time <? now + lookup_cost b now + POLL_FREQUENCY
             then Some (@inl exn element TimeoutException,
                        now + lookup_cost b now + POLL_FREQUENCY)
             else until_loop rounds b css end_time
                    (now + lookup_cost b now + POLL_FREQUENCY)) = Some out ->
            exists t, out = (inl TimeoutException, t)
                      /\ end_time < t <= end_time + POLL_FREQUENCY + delta).
  { destruct (Nat.ltb_spec end_time (now + lookup_cost b now + POLL_FREQUENCY))
      as [Hlt | Hle]; intro Ho.
    - injection Ho as <-. eexists. split; [reflexivity | lia].
    - now apply (IH _ _ Hle). }
  destruct (visibility_of_element_located b css now) as [ex | [e | ]] eqn:E.
  - unfold visibility_of_element_located in E.
    destruct (first_or_raise (document_find_elements (page_at b now) css))
      as [ex' | e'] eqn:F; [ | discriminate].
    injection E as <-.
    unfold first_or_raise in F.
    destruct (document_find_elements (page_at b now) css); [ | discriminate].
    injection F as <-. now apply Hagain.
  - exfalso. now apply (Hn e).
  - now apply Hagain.
Qed.

(** An element the loop returns was found displayed at one of the
    looks. *)
Lemma until_loop_returns_visible (b : browser) (css : selector)
  (end_time : nat) :
  forall rounds now e t,
    until_loop rounds b css end_time now = Some (inr e, t) ->
    exists t0, now <= t0 <= t
               /\ visibility_of_element_located b css t0 = inr (Some e).
Proof.
  induction rounds as [ | rounds IH]; intros now e t H; [discriminate | ].
  cbn [until_loop] in H.
  assert (Hagain :
            (if end_time <? now + lookup_cost b now + POLL_FREQUENCY
             then Some (@inl exn element TimeoutException,
                        now + lookup_cost b now + POLL_FREQUENCY)
             else until_loop rounds b css end_time
                    (now + lookup_cost b now + POLL_FREQUENCY))
            = Some (inr e, t) ->
            exists t0, now <= t0 <= t
                       /\ visibility_of_element_located b css t0 = inr (Some e)).
  { destruct (end_time <? now + lookup_cost b now + POLL_FREQUENCY);
      intro Ho; [discriminate | ].
    apply IH in Ho as (t0 & Ht0 & Hv). exists t0. split; [lia | exact Hv]. }
  destruct (visibility_of_element_located b css now) as [ex | [e' | ]] eqn:E.
  - destruct ex; first [now apply Hagain | discriminate].
  - injection H as <- <-. exists now. split; [lia | exact E].
  - now apply Hagain.
Qed.

Lemma until_rounds_suffice (timeout : nat) (start : nat) :
  1 <= timeout * 1000 / POLL_FREQUENCY + 2
  /\ start + timeout * 1000
     < start + (timeout * 1000 / POLL_FREQUENCY + 2) * POLL_FREQUENCY.
Proof.
  split; [lia | ].
  pose proof (Nat.mul_succ_div_gt (timeout * 1000) POLL_FREQUENCY) as H.
  assert (Hp : POLL_FREQUENCY <> 0) by (pose proof poll_positive; lia).
  specialize (H Hp). nia.
Qed.

(** C8: [get_element] always comes back: it returns or raises for
    every page and selector.  When the selector never matches a
    visible element and a look at the page takes at most [delta]
    milliseconds, it raises [TimeoutException] once the ten seconds
    are over and no later than one polling period and one look after
    them.  An element it returns was found displayed by one of its
    looks. *)
Theorem get_element_bounded_wait (b : browser) (css : selector)
  (start delta : nat) :
  (exists out, get_element b css start = Some out)
  /\ (never_visible b css -> lookup_within b delta ->
        exists t, get_element b css start = Some (inl TimeoutException, t)
                  /\ start + 10 * 1000 < t
                  /\ t <= start + 10 * 1000 + POLL_FREQUENCY + delta)
  /\ (forall e t, get_element b css start = Some (inr e, t) ->
        exists t0, start <= t0 <= t
                   /\ visibility_of_element_located b css t0 = inr (Some e)).
Proof.
  unfold get_element, until.
  destruct (until_rounds_suffice 10 start) as [Hr Hd].
  pose proof (until_loop_total b css (start + 10 * 1000) _ start Hr Hd) as Htotal.
  destruct (until_loop (10 * 1000 / POLL_FREQUENCY + 2) b css
              (start + 10 * 1000) start) as [out | ] eqn:E;
    [ | now elim Htotal].
  split; [now exists out | split].
  - intros Hnever Hcost.
    destruct (until_loop_times_out b css (start + 10 * 1000) delta Hnever Hcost
                _ start out ltac:(lia) E) as (t & -> & Ht).
    exists t. split; [reflexivity | lia].
  - intros e t Hout. injection Hout as ->.
    exact (until_loop_returns_visible b css (start + 10 * 1000) _ start e t E).
Qed.

Lemma get_element_bounded_wait_witness :
  exists t, get_element blank_browser css_anchor 0 = Some (inl TimeoutException, t)
            /\ 0 + 10 * 1000 < t
            /\ t <= 0 + 10 * 1000 + POLL_FREQUENCY + 20.
Proof.
  apply (proj1 (proj2 (get_element_bounded_wait blank_browser css_anchor 0 20))).
  - intros t e. vm_compute. discriminate.
  - intro t. vm_compute. lia.
Defined.

(** * Further properties of the fixtures *)

(** ** Runs *)

(** X1: the calls of a run are always an initial segment of one
    fixed script: launch, the user steps, the project steps, the
    test method, the teardown steps; the login carries the
    credentials [create_user] returned; and no call other than the
    test method is followed by another call once it has raised. *)
Theorem run_follows_script (w : world) (l : layer)
  (opts : option launch_opts) (root : option string) :
  let j := run_journal w l (fresh_instance opts root) in
  prefix_of (calls j) (script w l opts)
  /\ raises_only_at_end_or_in_test j = true.
Proof.
  cbv zeta. unfold prefix_of, script.
  destruct l, opts; unfold_fixture; split_returns w;
    (split; [cbn; eexists; reflexivity | reflexivity]).
Qed.

(** X2: a run from a fresh instance reports no error exactly when
    every call returned normally, it reports at most two errors, and
    every error it reports is the one a collaborator raised: the
    fixtures never trip over an attribute of their own that is
    unset. *)
Theorem run_errors_are_collaborator_failures (w : world) (l : layer)
  (opts : option launch_opts) (root : option string) :
  let errors := fst (run w l (fresh_instance opts root)) in
  let j := run_journal w l (fresh_instance opts root) in
  (errors = [] <-> forallb snd j = true)
  /\ length errors <= 2
  /\ Forall (fun e => e = WebDriverException) errors.
Proof.
  cbv zeta.
  destruct l, opts; unfold_fixture; split_returns w; cbn;
    (split; [split; intro H; first [reflexivity | discriminate H] | ]);
    (split; [lia | repeat constructor]).
Qed.

(** X3: a completed [ProjectSmokeTest.setUp] leaves the instance
    holding what the collaborators returned (the driver, the user and
    the project address) with the class attributes untouched, and
    [goto] with page [dashboard] then sends the browser to exactly
    the address [create_project] returned. *)
Theorem project_setup_then_dashboard (w : world)
  (opts : option launch_opts) (root : option string) (s1 : instance) :
  setUp w ProjectSmokeTest (fresh_instance opts root) = (inr tt, s1) ->
  s1 = {| driver_opts := opts; site_root := root;
          driver := Some (fresh_driver w []);
          user_data := Some (fresh_user w [(Launch opts, true)]);
          project_url := Some (fresh_project w (before_project w opts));
          journal := project_setup_journal w opts |}
  /\ goto w "dashboard" [] s1
     = unit_call w (Get (fresh_project w (before_project w opts))) s1.
Proof.
  intro H.
  assert (Hs : s1 = {| driver_opts := opts; site_root := root;
                       driver := Some (fresh_driver w []);
                       user_data := Some (fresh_user w [(Launch opts, true)]);
                       project_url := Some (fresh_project w (before_project w opts));
                       journal := project_setup_journal w opts |}).
  { unfold before_project, project_setup_journal.
    destruct opts; unfold_fixture; split_returns w; try discriminate;
      now injection H as <-. }
  split; [exact Hs | ]. now rewrite Hs.
Qed.

Lemma project_setup_then_dashboard_witness :
  goto (calm (sample_page "")) "dashboard" []
       (snd (setUp (calm (sample_page "")) ProjectSmokeTest
                   (fresh_instance None None)))
  = unit_call (calm (sample_page ""))
      (Get "http://localhost:5000/project/abc/")
      (snd (setUp (calm (sample_page "")) ProjectSmokeTest
                  (fresh_instance None None))).
Proof.
  apply (project_setup_then_dashboard (calm (sample_page "")) None None).
  reflexivity.
Defined.

(** ** Navigation, continued *)

(** X4: the [files] and [file] rules cut the last character off the
    project address whatever it is: an address without the trailing
    slash loses a character of its path, and the empty address gives
    [/files]. *)
Theorem goto_cuts_last_character (w : world) (s : instance) (d : nat)
  (base name : string) (c : ascii) :
  driver s = Some d ->
  (project_url s = Some (base ++ String c "") ->
     goto w "files" [] s = unit_call w (Get (base ++ "/files")) s
     /\ goto w "file" [PyStr name] s
        = unit_call w (Get (base ++ "/files/" ++ name)) s)
  /\ (project_url s = Some "" ->
        goto w "files" [] s = unit_call w (Get "/files") s).
Proof.
  intro Hd. split; intro Hp; [split | ];
    unfold goto, bind, getattr, lift, build_path; rewrite Hd; cbn;
    unfold bind, getattr, lift; rewrite Hp; cbn;
    rewrite ?drop_last_snoc; reflexivity.
Qed.

Lemma goto_cuts_last_character_witness :
  goto (calm (sample_page "")) "files" []
       (with_project_url "http://localhost:5000/project/abc" ready)
  = unit_call (calm (sample_page ""))
      (Get "http://localhost:5000/project/ab/files")
      (with_project_url "http://localhost:5000/project/abc" ready)
  /\ goto (calm (sample_page "")) "files" [] (with_project_url "" ready)
     = unit_call (calm (sample_page "")) (Get "/files")
         (with_project_url "" ready).
Proof.
  split.
  - apply (proj1 (goto_cuts_last_character (calm (sample_page ""))
                    (with_project_url "http://localhost:5000/project/abc" ready)
                    1 "http://localhost:5000/project/ab" "x" "c" eq_refl)).
    reflexivity.
  - apply (proj2 (goto_cuts_last_character (calm (sample_page ""))
                    (with_project_url "" ready) 1 "" "" "c" eq_refl)).
    reflexivity.
Defined.

(** X5: the [file] rule looks at its first argument only: further
    arguments change nothing, a string is appended as the file name,
    and anything that is not a string raises [TypeError] before the
    browser is asked for anything. *)
Theorem goto_file_first_argument (w : world) (s : instance) (d : nat)
  (p : string) (a : pyobj) (rest : list pyobj) :
  driver s = Some d ->
  project_url s = Some p ->
  goto w "file" (a :: rest) s = goto w "file" [a] s
  /\ match a with
     | PyStr name =>
         goto w "file" (a :: rest) s
         = unit_call w (Get (drop_last p ++ "/files/" ++ name)) s
     | _ => goto w "file" (a :: rest) s = (inl TypeError, s)
     end.
Proof.
  intros Hd Hp. split; [reflexivity | ].
  destruct a;
    unfold goto, bind, getattr, lift, build_path; rewrite Hd; cbn;
    unfold bind, getattr, lift; rewrite Hp; cbn; reflexivity.
Qed.

Lemma goto_file_first_argument_witness :
  goto (calm (sample_page "")) "file" [PyInt 3; PyStr "report.csv"] ready
  = (inl TypeError, ready).
Proof.
  exact (proj2 (goto_file_first_argument (calm (sample_page "")) ready 1
                  "http://localhost:5000/project/abc/" (PyInt 3)
                  [PyStr "report.csv"] eq_refl eq_refl)).
Defined.

(** X6: attributes are read in a fixed order and an unset one raises
    [AttributeError] with nothing requested.  Without a driver every
    page, known or not, fails on [driver]; with a driver but no
    project address the three project pages fail on [project_url],
    even [file] without arguments; and [user-dashboard] needs
    [site_root], which no fixture of the module assigns. *)
Theorem goto_unset_attribute (w : world) (s : instance) (page : string)
  (args : list pyobj) :
  (driver s = None -> goto w page args s = (inl (AttributeError "driver"), s))
  /\ (forall d, driver s = Some d -> project_url s = None ->
        In page ["dashboard"; "files"; "file"] ->
        goto w page args s = (inl (AttributeError "project_url"), s))
  /\ (forall d, driver s = Some d -> site_root s = None ->
        goto w "user-dashboard" args s = (inl (AttributeError "site_root"), s)).
Proof.
  repeat split.
  - intro Hd. unfold goto, bind, getattr. now rewrite Hd.
  - intros d Hd Hp Hin.
    destruct Hin as [<- | [<- | [<- | []]]];
      unfold goto, bind, getattr, lift, build_path; rewrite Hd; cbn;
      unfold bind, getattr, lift; rewrite Hp; reflexivity.
  - intros d Hd Hr.
    unfold goto, bind, getattr, lift, build_path; rewrite Hd; cbn;
      unfold bind, getattr, lift; rewrite Hr; reflexivity.
Qed.

Lemma goto_unset_attribute_witness :
  goto (calm (sample_page "")) "no-such-page" [] (fresh_instance None None)
  = (inl (AttributeError "driver"), fresh_instance None None)
  /\ goto (calm (sample_page "")) "file" []
          (with_driver 1 (fresh_instance None None))
     = (inl (AttributeError "project_url"),
        with_driver 1 (fresh_instance None None))
  /\ goto (calm (sample_page "")) "user-dashboard" []
          (snd (setUp (calm (sample_page "")) ProjectSmokeTest
                      (fresh_instance None None)))
     = (inl (AttributeError "site_root"),
        snd (setUp (calm (sample_page "")) ProjectSmokeTest
                   (fresh_instance None None))).
Proof.
  split; [ | split].
  - apply (proj1 (goto_unset_attribute (calm (sample_page ""))
                    (fresh_instance None None) "no-such-page" [])).
    reflexivity.
  - apply (proj1 (proj2 (goto_unset_attribute (calm (sample_page ""))
                    (with_driver 1 (fresh_instance None None)) "file" []))
             1); [reflexivity | reflexivity | cbn; auto].
  - apply (proj2 (proj2 (goto_unset_attribute (calm (sample_page ""))
                    (snd (setUp (calm (sample_page "")) ProjectSmokeTest
                                (fresh_instance None None)))
                    "user-dashboard" [])) 1); reflexivity.
Defined.

Lemma outside_get_effect (w : world) (s : instance) (url : string) :
  unit_call w (Get url) s
  = (if returns w (journal s) (Get url)
     then inr tt else inl WebDriverException,
     with_journal (journal s ++ [(Get url, returns w (journal s) (Get url))]) s).
Proof.
  unfold unit_call, outside.
  now destruct (returns w (journal s) (Get url)).
Qed.

(** X7: whatever the page key and arguments, [goto] does one of two
    things.  Either it raises with the instance untouched, or it asks
    the browser for exactly one address and changes nothing but the
    journal; it returns normally exactly when that one request
    does. *)
Theorem goto_one_request_or_none (w : world) (page : string)
  (args : list pyobj) (s : instance) :
  (exists e, goto w page args s = (inl e, s))
  \/ (exists url,
        goto w page args s
        = (if returns w (journal s) (Get url)
           then inr tt else inl WebDriverException,
           with_journal
             (journal s ++ [(Get url, returns w (journal s) (Get url))]) s)).
Proof.
  unfold goto, bind, getattr, lift, build_path.
  destruct (driver s) as [d | ]; [ | left; eauto].
  cbn [getitem_dict].
  repeat match goal with
         | |- context [if String.eqb ?a page then _ else _] =>
             destruct (String.eqb a page)
         end;
    try (left; eexists; reflexivity);
    unfold bind, getattr, lift.
  - destruct (project_url s) as [p | ]; [ | left; eauto].
    right. exists p. apply outside_get_effect.
  - destruct (project_url s) as [p | ]; [ | left; eauto].
    right. eexists. cbn. apply outside_get_effect.
  - destruct (project_url s) as [p | ]; [ | left; eauto].
    destruct args as [ | [name | n | ] rest]; cbn;
      try (left; eexists; reflexivity).
    right. eexists. apply outside_get_effect.
  - destruct (site_root s) as [r | ]; [ | left; eauto].
    right. eexists. cbn. apply outside_get_effect.
Qed.

(** ** Selecting elements *)

Lemma subseq_nil_l {A} (l : list A) : subseq [] l.
Proof. induction l; constructor; assumption. Qed.

Lemma subseq_app {A} (a b c d : list A) :
  subseq a b -> subseq c d -> subseq (a ++ c) (b ++ d).
Proof.
  induction 1; cbn; intros;
    [assumption | apply subseq_skip; auto | apply subseq_take; auto].
Qed.

Lemma selector_matches_subject (sel : selector) (ancs : list placed)
  (p : placed) :
  selector_matches sel ancs p = true ->
  exists c, subject sel = Some c /\ sel_tag c = tag_of (fst p).
Proof.
  unfold selector_matches, subject. destruct (rev sel) as [ | c outer];
    [discriminate | ].
  intro H. exists c. split; [reflexivity | ].
  apply andb_prop in H as [H _]. unfold compound_matches in H.
  apply andb_prop in H as [H _]. apply andb_prop in H as [H _].
  now apply String.eqb_eq.
Qed.

Lemma select_from_sound (sel : selector) (e : element) :
  forall ancs first,
    subseq (select_from sel ancs first e) (document_order e)
    /\ Forall (fun x => exists c, subject sel = Some c /\ sel_tag c = tag_of x)
              (select_from sel ancs first e).
Proof.
  induction e as [t c a x kids IH] using element_ind'. intros ancs first.
  rewrite select_from_node, document_order_node.
  assert (Hk : forall ancs' seen,
             subseq (select_below sel ancs' seen kids)
                    (flat_map document_order kids)
             /\ Forall (fun y => exists c, subject sel = Some c
                                           /\ sel_tag c = tag_of y)
                       (select_below sel ancs' seen kids)).
  { induction IH as [ | k kids Hk _ IHk]; intros ancs' seen; cbn.
    - split; constructor.
    - destruct (Hk ancs' (negb (mem_string (tag_of k) seen))) as [H1 H2].
      destruct (IHk ancs' (tag_of k :: seen)) as [H3 H4].
      split; [now apply subseq_app | now apply Forall_app]. }
  destruct (Hk ((Node t c a x kids, first) :: ancs) []) as [H1 H2].
  destruct (selector_matches sel ancs (Node t c a x kids, first)) eqn:E; cbn.
  - split; [now apply subseq_take | ].
    constructor; [ | exact H2].
    now apply (selector_matches_subject sel ancs (Node t c a x kids, first)).
  - split; [now apply subseq_skip | exact H2].
Qed.

(** X8: whatever the selector, the elements a lookup of [get_log]
    finds in a page are elements of that page in document order (a
    subsequence of the pre-order walk), and each has the tag the
    selector's rightmost compound names; a lookup started at an
    element finds only elements strictly below it. *)
Theorem found_elements_in_document_order (sel : selector) (root : element) :
  subseq (document_find_elements root sel) (document_order root)
  /\ subseq (find_elements_by_css_selector root sel)
            (flat_map document_order (children_of root))
  /\ Forall (fun x => exists c, subject sel = Some c /\ sel_tag c = tag_of x)
            (document_find_elements root sel ++ find_elements_by_css_selector root sel).
Proof.
  unfold document_find_elements, find_elements_by_css_selector.
  destruct (select_from_sound sel root [] true) as [H1 H2].
  assert (Hk : forall kids ancs seen,
             subseq (select_below sel ancs seen kids)
                    (flat_map document_order kids)
             /\ Forall (fun y => exists c, subject sel = Some c
                                           /\ sel_tag c = tag_of y)
                       (select_below sel ancs seen kids)).
  { induction kids as [ | k kids IHk]; intros ancs seen; cbn.
    - split; constructor.
    - destruct (select_from_sound sel k ancs (negb (mem_string (tag_of k) seen)))
        as [H3 H4].
      destruct (IHk ancs (tag_of k :: seen)) as [H5 H6].
      split; [now apply subseq_app | now apply Forall_app]. }
  destruct (Hk (children_of root) [(root, true)] []) as [H3 H4].
  split; [exact H1 | split; [exact H3 | now apply Forall_app]].
Qed.

Lemma log_list_needs_container (ancs : list placed) (p : placed) :
  Forall (fun a => is_log_container (fst a) = false) ancs ->
  selector_matches css_log_list ancs p = false.
Proof.
  intro H.
  change (selector_matches css_log_list ancs p)
    with (compound_matches
            {| sel_tag := "dl"; sel_class := None; sel_first_of_type := false |} p
          && ancestors_match
               [ {| sel_tag := "div"; sel_class := Some "span5";
                    sel_first_of_type := false |} ] ancs).
  apply andb_false_intro2.
  induction H as [ | a ancs Ha _ IH]; [reflexivity | ].
  cbn [ancestors_match] in *. rewrite IH, orb_false_r.
  unfold compound_matches. cbn [sel_tag sel_class sel_first_of_type].
  unfold is_log_container in Ha. rewrite Ha. reflexivity.
Qed.

Lemma no_container_no_log (e : element) :
  forall ancs first,
    Forall (fun a => is_log_container (fst a) = false) ancs ->
    forallb (fun x => negb (is_log_container x)) (document_order e) = true ->
    select_from css_log_list ancs first e = [].
Proof.
  induction e as [t c a x kids IH] using element_ind'.
  intros ancs first Hancs Hall.
  rewrite select_from_node, (log_list_needs_container ancs _ Hancs).
  rewrite document_order_node in Hall. cbn [forallb] in Hall.
  apply andb_prop in Hall as [Hhere Hkids].
  apply negb_true_iff in Hhere.
  assert (Hup : Forall (fun a => is_log_container (fst a) = false)
                       ((Node t c a x kids, first) :: ancs))
    by (constructor; assumption).
  revert Hup. generalize ((Node t c a x kids, first) :: ancs) as up.
  generalize (@nil string) as seen.
  induction IH as [ | k kids Hk _ IHk]; intros seen up Hup; [reflexivity | ].
  cbn [flat_map] in Hkids. rewrite forallb_app in Hkids.
  apply andb_prop in Hkids as [H1 H2].
  cbn [select_below app]. rewrite (Hk up _ Hup H1). now apply IHk.
Qed.

(** X9: on a page with no [div] of class [span5] anywhere, [get_log]
    of an instance with a driver raises [NoSuchElementException],
    however many [dl] lists the page holds, and leaves the instance
    as it was. *)
Theorem get_log_needs_container (w : world) (s : instance) (d : nat) :
  driver s = Some d ->
  forallb (fun x => negb (is_log_container x))
          (document_order (rendered w (journal s))) = true ->
  get_log w s = (inl NoSuchElementException, s).
Proof.
  intros Hd Hall.
  unfold get_log, bind, getattr. rewrite Hd.
  unfold document_find_elements.
  now rewrite (no_container_no_log _ (@nil placed) true (Forall_nil _) Hall).
Qed.

Lemma get_log_needs_container_witness :
  get_log (calm (sample_log "03/14/24 02:15 PM")) ready
  = (inl NoSuchElementException, ready).
Proof.
  apply (get_log_needs_container (calm (sample_log "03/14/24 02:15 PM")) ready 1);
    reflexivity.
Defined.

Lemma subseq_in {A} (a b : list A) (x : A) : subseq a b -> In x a -> In x b.
Proof.
  induction 1; cbn; intro Hin; [exact Hin | right; auto | ].
  destruct Hin as [-> | Hin]; [now left | right; auto].
Qed.

Lemma no_tag_nothing_selected (tag : string) (e : element)
  (ancs : list placed) (first : bool) :
  (forall x, In x (document_order e) -> String.eqb tag (tag_of x) = false) ->
  select_from (css_first_of tag) ancs first e = [].
Proof.
  intro Hno.
  destruct (select_from_sound (css_first_of tag) e ancs first) as [Hsub Htag].
  destruct (select_from (css_first_of tag) ancs first e) as [ | y l];
    [reflexivity | exfalso].
  inversion Htag as [ | ? ? (c & Hc & Hy) _]; subst.
  injection Hc as <-. cbn [sel_tag] in Hy.
  assert (Hin : In y (document_order e))
    by (apply (subseq_in _ _ y Hsub); now left).
  apply Hno in Hin. rewrite <- Hy, String.eqb_refl in Hin. discriminate.
Qed.

Lemma first_of_matches (tag : string) (ancs : list placed) (p : placed) :
  selector_matches (css_first_of tag) ancs p
  = String.eqb tag (tag_of (fst p)) && snd p.
Proof.
  change (selector_matches (css_first_of tag) ancs p)
    with (String.eqb tag (tag_of (fst p)) && true && (false || snd p) && true).
  now rewrite !andb_true_r.
Qed.

(** Among children that hold no element of the tag below them,
    [tag:nth-of-type(1)] finds the first child of that tag and
    nothing else. *)
Lemma first_of_type_among_children (tag : string) (ancs : list placed) :
  forall kids seen,
    Forall (fun k => forall x, In x (flat_map document_order (children_of k)) ->
                               String.eqb tag (tag_of x) = false) kids ->
    select_below (css_first_of tag) ancs seen kids
    = if mem_string tag seen then []
      else match first_with_tag tag kids with
           | Some k => [k]
           | None => []
           end.
Proof.
  induction kids as [ | k kids IH]; intros seen Hplain.
  - cbn. now destruct (mem_string tag seen).
  - inversion Hplain as [ | ? ? Hk Hrest]; subst.
    cbn [select_below]. rewrite (IH _ Hrest).
    destruct k as [tk ck ak xk kk]. rewrite select_from_node, first_of_matches.
    cbn [fst snd tag_of children_of] in *.
    assert (Hbelow : forall up sn, select_below (css_first_of tag) up sn kk = []).
    { clear - Hk. induction kk as [ | q kk IHq]; intros up sn; [reflexivity | ].
      cbn [select_below]. rewrite IHq.
      - rewrite no_tag_nothing_selected; [reflexivity | ].
        intros y Hy. apply Hk. cbn [flat_map]. apply in_or_app. now left.
      - intros y Hy. apply Hk. cbn [flat_map]. apply in_or_app. now right. }
    rewrite Hbelow, app_nil_r.
    unfold first_with_tag, mem_string. cbn [find existsb tag_of].
    destruct (String.eqb tag tk) eqn:E.
    + apply String.eqb_eq in E. subst tk. cbn.
      now destruct (existsb (String.eqb tag) seen).
    + cbn. now destruct (existsb (String.eqb tag) seen).
Qed.

Lemma first_with_tag_app (tag : string) (kids more : list element)
  (k : element) :
  first_with_tag tag kids = Some k ->
  first_with_tag tag (kids ++ more) = Some k.
Proof.
  unfold first_with_tag. induction kids as [ | q kids IH]; cbn;
    [discriminate | ].
  destruct (String.eqb tag (tag_of q)); auto.
Qed.

(** X10: in a list whose entries hold no further [dd] or [dt] inside
    them, [LogEntry] reads the first [dd] child and the first [dt]
    child and nothing after them: whatever entries follow, the parsed
    record is the same. *)
Theorem log_entry_reads_first_pair (t : string) (c : list string)
  (a : list (string * string)) (x : string)
  (kids more : list element) (entry stamp : element) :
  Forall plain (kids ++ more) ->
  first_with_tag "dd" kids = Some entry ->
  first_with_tag "dt" kids = Some stamp ->
  first_or_raise
    (find_elements_by_css_selector (Node t c a x (kids ++ more)) css_first_dd)
  = inr entry
  /\ first_or_raise
       (find_elements_by_css_selector (Node t c a x (kids ++ more)) css_first_dt)
     = inr stamp
  /\ LogEntry_init (Node t c a x (kids ++ more))
     = LogEntry_init (Node t c a x kids).
Proof.
  intros Hplain Hdd Hdt.
  assert (Hkids : Forall plain kids)
    by (apply Forall_app in Hplain; apply Hplain).
  assert (Hq : forall tag ks k,
             Forall plain ks -> (tag = "dd" \/ tag = "dt") ->
             first_with_tag tag ks = Some k ->
             find_elements_by_css_selector (Node t c a x ks) (css_first_of tag)
             = [k]).
  { intros tag ks k Hks Htag Hk.
    unfold find_elements_by_css_selector. cbn [children_of].
    rewrite first_of_type_among_children.
    - cbn [mem_string existsb]. now rewrite Hk.
    - eapply Forall_impl; [ | exact Hks]. intros q Hq y Hy.
      destruct (Hq y Hy) as [H1 H2]. now destruct Htag as [-> | ->]. }
  change css_first_dd with (css_first_of "dd").
  change css_first_dt with (css_first_of "dt").
  pose proof (Hq "dd" _ entry Hplain (or_introl eq_refl)
                (first_with_tag_app _ _ more _ Hdd)) as H1.
  pose proof (Hq "dt" _ stamp Hplain (or_intror eq_refl)
                (first_with_tag_app _ _ more _ Hdt)) as H2.
  pose proof (Hq "dd" _ entry Hkids (or_introl eq_refl) Hdd) as H3.
  pose proof (Hq "dt" _ stamp Hkids (or_intror eq_refl) Hdt) as H4.
  split; [now rewrite H1 | split; [now rewrite H2 | ] ].
  unfold LogEntry_init.
  change css_first_dd with (css_first_of "dd").
  change css_first_dt with (css_first_of "dt").
  now rewrite H1, H2, H3, H4.
Qed.

Lemma log_entry_reads_first_pair_witness :
  LogEntry_init
    (Node "dl" [] [] ""
       ([Node "dt" [] [] "03/14/24 02:15 PM" []; sample_entry]
        ++ [Node "dt" [] [] "yesterday" [];
            Node "dd" [] [] "Created project" []]))
  = LogEntry_init (sample_log "03/14/24 02:15 PM").
Proof.
  apply (log_entry_reads_first_pair "dl" [] [] ""
           [Node "dt" [] [] "03/14/24 02:15 PM" []; sample_entry]
           [Node "dt" [] [] "yesterday" []; Node "dd" [] [] "Created project" []]
           sample_entry (Node "dt" [] [] "03/14/24 02:15 PM" []));
    try reflexivity.
  cbn [app].
  repeat (apply Forall_cons;
          [ intros y Hy; cbn in Hy;
            repeat (destruct Hy as [<- | Hy]); try contradiction;
            split; reflexivity
          | ]).
  apply Forall_nil.
Defined.

(** ** Timestamps, continued *)

Lemma firstn_matched (s1 s2 : list ascii) :
  firstn (length (s1 ++ s2) - length s2) (s1 ++ s2) = s1.
Proof.
  replace (length (s1 ++ s2) - length s2) with (length s1)
    by (rewrite length_app; lia).
  induction s1 as [ | x s1 IH]; cbn; [reflexivity | now rewrite IH].
Qed.

(** The matcher hands its continuation the groups of a match. *)
Lemma rmatch_captures {A} (r : regex) :
  forall (s : list ascii) (g : groups)
         (k : list ascii -> groups -> option A) (a : A),
    rmatch r s g k = Some a ->
    exists s1 s2 g', s = (s1 ++ s2)%list /\ captures r s1 g g'
                     /\ k s2 g' = Some a.
Proof.
  induction r as [ | c | cs | cs | r1 IH1 r2 IH2 | r1 IH1 r2 IH2 | name r1 IH1];
    intros s g k a H; cbn [rmatch] in H.
  - exists [], s, g. repeat split; [constructor | exact H].
  - destruct s as [ | x s]; [discriminate | ].
    destruct (same_char c x) eqn:E; [ | discriminate].
    exists [x], s, g. repeat split; [now constructor | exact H].
  - destruct s as [ | x s]; [discriminate | ].
    destruct (in_class cs x) eqn:E; [ | discriminate].
    exists [x], s, g. repeat split; [now constructor | exact H].
  - destruct s as [ | x s]; [discriminate | ].
    destruct (in_class cs x) eqn:E; [ | discriminate].
    apply many_sound in H as (s1 & s2 & -> & Hall & Hk).
    exists (x :: s1), s2, g. repeat split; [now constructor | exact Hk].
  - apply IH1 in H as (s1 & s2 & g1 & -> & L1 & H).
    apply IH2 in H as (s3 & s4 & g2 & -> & L2 & H).
    exists (s1 ++ s3)%list, s4, g2.
    repeat split; [now rewrite app_assoc | | exact H].
    now apply (cap_cat _ _ _ _ g g1 g2).
  - destruct (rmatch r1 s g k) as [a1 | ] eqn:E.
    + injection H as <-.
      apply IH1 in E as (s1 & s2 & g1 & -> & L1 & H).
      exists s1, s2, g1. repeat split; [now apply cap_alt_l | exact H].
    + apply IH2 in H as (s1 & s2 & g1 & -> & L2 & H).
      exists s1, s2, g1. repeat split; [now apply cap_alt_r | exact H].
  - apply IH1 in H as (s1 & s2 & g1 & -> & L1 & H).
    rewrite firstn_matched in H.
    exists s1, s2, ((name, s1) :: g1). repeat split; [now constructor | exact H].
Qed.

Lemma captures_in_lang (r : regex) (s : list ascii) (g g' : groups) :
  captures r s g g' -> in_lang r s.
Proof.
  induction 1;
    first [now constructor | now apply lang_alt_l | now apply lang_alt_r].
Qed.

Lemma captures_groupless (r : regex) (s : list ascii) (g g' : groups) :
  captures r s g g' -> groupless r = true -> g' = g.
Proof.
  induction 1; cbn; intro Hg; try reflexivity; try discriminate;
    try (apply andb_prop in Hg as [Hg1 Hg2]); auto.
  rewrite IHcaptures2, IHcaptures1; auto.
Qed.

Lemma captures_cat_inv (r1 r2 : regex) (s : list ascii) (g g2 : groups) :
  captures (Cat r1 r2) s g g2 ->
  exists s1 s2 g1, s = (s1 ++ s2)%list /\ captures r1 s1 g g1
                   /\ captures r2 s2 g1 g2.
Proof. inversion 1; subst; eauto 7. Qed.

Lemma captures_field_inv (name : string) (r : regex) (s : list ascii)
  (g g1 : groups) :
  groupless r = true ->
  captures (Group name r) s g g1 -> g1 = (name, s) :: g /\ in_lang r s.
Proof.
  intros Hr H. inversion H; subst.
  match goal with
  | Hc : captures r s g _ |- _ =>
      rewrite (captures_groupless _ _ _ _ Hc Hr);
      split; [reflexivity | exact (captures_in_lang _ _ _ _ Hc)]
  end.
Qed.

Lemma captures_plain_inv (r : regex) (s : list ascii) (g g1 : groups) :
  groupless r = true -> captures r s g g1 -> g1 = g /\ in_lang r s.
Proof.
  intros Hr H. split; [exact (captures_groupless _ _ _ _ H Hr) | ].
  exact (captures_in_lang _ _ _ _ H).
Qed.

Lemma int_between_sound (lo hi : nat) (t : list ascii) :
  int_between lo hi t = true -> exists n, int t = Some n /\ lo <= n <= hi.
Proof.
  unfold int_between. destruct (int t) as [n | ]; [ | discriminate].
  intro H. apply andb_prop in H as [H1 H2].
  apply Nat.leb_le in H1, H2. exists n. auto.
Qed.

Lemma twelve_value (t : list ascii) :
  in_lang re_twelve t -> exists n, int t = Some n /\ 1 <= n <= 12.
Proof.
  unfold re_twelve. intro H.
  invert_lang; apply int_between_sound; check_field.
Qed.

Lemma minute_value (t : list ascii) :
  in_lang re_minute t -> exists n, int t = Some n /\ 0 <= n <= 59.
Proof.
  unfold re_minute. intro H.
  invert_lang; apply int_between_sound; check_field.
Qed.

Lemma year2_value (t : list ascii) :
  in_lang re_year2 t -> exists n, int t = Some n /\ 0 <= n <= 99.
Proof.
  unfold re_year2. intro H.
  invert_lang; apply int_between_sound; check_field.
Qed.

Lemma day_value (t : list ascii) :
  in_lang re_day t -> exists n, int t = Some n /\ 1 <= n <= 31.
Proof.
  unfold re_day. intro H.
  invert_lang; apply int_between_sound; check_field.
Qed.

(** The groups a successful match of the log format hands over. *)
Lemma log_regex_groups (s : list ascii) (g : groups) :
  captures log_regex s [] g ->
  exists mo d y b1 h mi b2 ap,
    s = (mo ++ "/"%char :: d ++ "/"%char :: y ++ b1
            ++ h ++ ":"%char :: mi ++ b2 ++ ap)%list
    /\ g = log_groups mo d y h mi ap
    /\ in_lang re_twelve mo /\ in_lang re_day d /\ in_lang re_year2 y
    /\ blanks b1 /\ in_lang re_twelve h /\ in_lang re_minute mi
    /\ blanks b2 /\ meridiem ap.
Proof.
  unfold log_regex. intro H.
  apply captures_cat_inv in H as (mo & r1 & g1 & E1 & Hmo & H).
  apply captures_cat_inv in H as (s1 & r2 & g2 & E2 & Hs1 & H).
  apply captures_cat_inv in H as (d & r3 & g3 & E3 & Hd & H).
  apply captures_cat_inv in H as (s2 & r4 & g4 & E4 & Hs2 & H).
  apply captures_cat_inv in H as (y & r5 & g5 & E5 & Hy & H).
  apply captures_cat_inv in H as (b1 & r6 & g6 & E6 & Hb1 & H).
  apply captures_cat_inv in H as (h & r7 & g7 & E7 & Hh & H).
  apply captures_cat_inv in H as (s3 & r8 & g8 & E8 & Hs3 & H).
  apply captures_cat_inv in H as (mi & r9 & g9 & E9 & Hmi & H).
  apply captures_cat_inv in H as (b2 & r10 & g10 & E10 & Hb2 & H).
  apply captures_cat_inv in H as (ap & r11 & g11 & E11 & Hap & H).
  apply (captures_plain_inv Eps) in H as [-> H]; [ | reflexivity].
  apply lang_eps_inv in H.
  apply captures_field_inv in Hmo as [-> Hmo]; [ | reflexivity].
  apply captures_plain_inv in Hs1 as [-> Hs1]; [ | reflexivity].
  apply captures_field_inv in Hd as [-> Hd]; [ | reflexivity].
  apply captures_plain_inv in Hs2 as [-> Hs2]; [ | reflexivity].
  apply captures_field_inv in Hy as [-> Hy]; [ | reflexivity].
  apply captures_plain_inv in Hb1 as [-> Hb1]; [ | reflexivity].
  apply captures_field_inv in Hh as [-> Hh]; [ | reflexivity].
  apply captures_plain_inv in Hs3 as [-> Hs3]; [ | reflexivity].
  apply captures_field_inv in Hmi as [-> Hmi]; [ | reflexivity].
  apply captures_plain_inv in Hb2 as [-> Hb2]; [ | reflexivity].
  apply captures_field_inv in Hap as [-> Hap]; [ | reflexivity].
  subst r11 r10 r9 r8 r7 r6 r5 r4 r3 r2 r1.
  apply separator_of_chr in Hs1, Hs2, Hs3; [ | cbn; auto ..]. subst s1 s2 s3.
  exists mo, d, y, b1, h, mi, b2, ap.
  split; [rewrite E1, app_nil_r; reflexivity | ].
  split; [reflexivity | ].
  repeat split; try assumption.
  - apply blanks_of_many1 in Hb1. apply Hb1.
  - apply blanks_of_many1 in Hb1. apply Hb1.
  - apply blanks_of_many1 in Hb2. apply Hb2.
  - apply blanks_of_many1 in Hb2. apply Hb2.
  - now apply ampm_meridiem.
Qed.

Lemma from_log_groups (mo d y h mi ap : list ascii) :
  from_groups (log_groups mo d y h mi ap)
  = match option_map century (int y), int mo, int d,
          option_map (fun n => hour24 n ap) (int h), int mi with
    | Some yv, Some mov, Some dv, Some hv, Some miv =>
        make_datetime yv mov dv hv miv
    | _, _, _, _, _ => inl ValueError
    end.
Proof. reflexivity. Qed.

Lemma hour24_meridiem (n : nat) (ap : list ascii) :
  1 <= n <= 12 -> meridiem ap ->
  hour24 n ap = n mod 12 + meridiem_offset ap.
Proof.
  intros Hn Hap. unfold hour24, meridiem_offset. cbv zeta.
  assert (Hmod : n mod 12 = if n =? 12 then 0 else n).
  { destruct (Nat.eqb_spec n 12) as [-> | Hne]; [reflexivity | ].
    apply Nat.mod_small. lia. }
  rewrite Hmod.
  destruct Hap as [E | E]; rewrite E;
    repeat match goal with
           | |- context [list_eq_dec ascii_dec ?a ?b] =>
               let Heq := fresh "Heq" in
               let Hne := fresh "Hne" in
               destruct (list_eq_dec ascii_dec a b) as [Heq | Hne];
               [ try discriminate Heq
               | try (exfalso; apply Hne; reflexivity) ]
           end;
    destruct (Nat.eqb_spec n 12) as [-> | Hne']; lia.
Qed.

(** X11: a timestamp that [strptime] accepts splits into month, day,
    year, hour, minute and meridiem, separated by two slashes, a run
    of blanks, a colon and a run of blanks, and the instant returned
    is what those fields say: month, day and minute as written, the
    two-digit year moved into 1969-2068, and the hour of the
    twelve-hour dial plus twelve after noon (12 AM is hour 0, 12 PM
    is hour 12). *)
Theorem strptime_reads_fields (text : string) (t : datetime) :
  strptime text log_format = inr t ->
  exists mo d y b1 h mi b2 ap nmo nd ny nh nmi,
    chars text
    = (mo ++ "/"%char :: d ++ "/"%char :: y ++ b1
          ++ h ++ ":"%char :: mi ++ b2 ++ ap)%list
    /\ blanks b1 /\ blanks b2 /\ meridiem ap
    /\ int mo = Some nmo /\ int d = Some nd /\ int y = Some ny
    /\ int h = Some nh /\ int mi = Some nmi
    /\ 1 <= nh <= 12 /\ ny <= 99
    /\ t = {| year := century ny; month := nmo; day := nd;
              hour := nh mod 12 + meridiem_offset ap;
              minute := nmi; second := 0 |}.
Proof.
  unfold strptime. rewrite pattern_log_format. intro H.
  destruct (re_match log_regex (chars text)) as [[rest g] | ] eqn:E;
    [ | discriminate].
  destruct rest; [ | discriminate].
  unfold re_match in E.
  apply rmatch_captures in E as (s1 & s2 & g' & Es & Hc & Hk).
  injection Hk as -> ->. rewrite app_nil_r in Es. subst s1.
  apply log_regex_groups in Hc
    as (mo & d & y & b1 & h & mi & b2 & ap & Et & -> & Hmo & Hd & Hy
        & Hb1 & Hh & Hmi & Hb2 & Hap).
  rewrite from_log_groups in H.
  apply twelve_value in Hmo as (nmo & Emo & Bmo).
  apply day_value in Hd as (nd & Ed & Bd).
  apply year2_value in Hy as (ny & Ey & By).
  apply twelve_value in Hh as (nh & Eh & Bh).
  apply minute_value in Hmi as (nmi & Emi & Bmi).
  rewrite Emo, Ed, Ey, Eh, Emi in H. cbn [option_map] in H.
  unfold make_datetime in H.
  match type of H with
  | (if ?c then _ else _) = _ => destruct c; [ | discriminate]
  end.
  injection H as <-.
  exists mo, d, y, b1, h, mi, b2, ap, nmo, nd, ny, nh, nmi.
  repeat split; try assumption; try lia; try apply Hb1; try apply Hb2.
  now rewrite (hour24_meridiem nh ap Bh Hap).
Qed.

(** X12: every instant [strptime] returns for the log format is a
    real one: a day that exists in its month (leap years included),
    in the years 1969 to 2068, with hour below 24, minute below 60
    and zero seconds. *)
Theorem strptime_returns_valid_stamp (text : string) (t : datetime) :
  strptime text log_format = inr t -> valid_stamp t.
Proof.
  unfold strptime. rewrite pattern_log_format. intro H.
  destruct (re_match log_regex (chars text)) as [[rest g] | ] eqn:E;
    [ | discriminate].
  destruct rest; [ | discriminate].
  unfold re_match in E.
  apply rmatch_captures in E as (s1 & s2 & g' & Es & Hc & Hk).
  injection Hk as -> ->.
  apply log_regex_groups in Hc
    as (mo & d & y & b1 & h & mi & b2 & ap & Et & -> & Hmo & Hd & Hy
        & Hb1 & Hh & Hmi & Hb2 & Hap).
  rewrite from_log_groups in H.
  apply year2_value in Hy as (ny & Ey & By).
  rewrite Ey in H. cbn [option_map] in H.
  destruct (int mo) as [nmo | ]; [ | discriminate].
  destruct (int d) as [nd | ]; [ | discriminate].
  destruct (option_map (fun n => hour24 n ap) (int h)) as [hv | ];
    [ | discriminate].
  destruct (int mi) as [nmi | ]; [ | discriminate].
  unfold make_datetime in H.
  match type of H with
  | (if ?c then _ else _) = _ => destruct c eqn:Hcheck; [ | discriminate]
  end.
  injection H as <-.
  repeat (apply andb_prop in Hcheck as [Hcheck ?]).
  repeat match goal with
         | Hle : (_ <=? _) = true |- _ => apply Nat.leb_le in Hle
         end.
  unfold valid_stamp. cbn [year month day hour minute second].
  assert (Hcent : 1969 <= century ny <= 2068).
  { unfold century. destruct (Nat.leb_spec ny 68); lia. }
  repeat split; try assumption; try lia.
Qed.

Lemma strptime_returns_valid_stamp_witness :
  valid_stamp {| year := 2024; month := 2; day := 29;
                 hour := 0; minute := 5; second := 0 |}.
Proof.
  apply (strptime_returns_valid_stamp "2/29/24 12:05 am"). reflexivity.
Defined.

Lemma strptime_reads_fields_witness :
  exists mo d y b1 h mi b2 ap nmo nd ny nh nmi,
    chars "03/14/24 02:15 PM"
    = (mo ++ "/"%char :: d ++ "/"%char :: y ++ b1
          ++ h ++ ":"%char :: mi ++ b2 ++ ap)%list
    /\ blanks b1 /\ blanks b2 /\ meridiem ap
    /\ int mo = Some nmo /\ int d = Some nd /\ int y = Some ny
    /\ int h = Some nh /\ int mi = Some nmi
    /\ 1 <= nh <= 12 /\ ny <= 99
    /\ {| year := 2024; month := 3; day := 14;
          hour := 14; minute := 15; second := 0 |}
       = {| year := century ny; month := nmo; day := nd;
            hour := nh mod 12 + meridiem_offset ap;
            minute := nmi; second := 0 |}.
Proof.
  apply (strptime_reads_fields "03/14/24 02:15 PM"). reflexivity.
Defined.

(** *** Round trip *)

(** One case per number up to the bound that a hypothesis gives. *)
Ltac by_cases n tac :=
  repeat (destruct n as [ | n]; [ try lia; tac | try lia ]).

Lemma int_two_digit (n : nat) : n <= 99 -> int (two_digit n) = Some n.
Proof. intro Hn. by_cases n ltac:(reflexivity). Qed.

Lemma two_digit_not_blank (n : nat) (rest : list ascii) :
  n <= 99 ->
  exists c rest', (two_digit n ++ rest)%list = c :: rest'
                  /\ in_class blank c = false.
Proof.
  intro Hn. exists (ascii_of_nat (48 + n / 10)). eexists.
  split; [reflexivity | ].
  by_cases n ltac:(reflexivity).
Qed.

Lemma group_step {A} (name : string) (r : regex) (t rest : list ascii)
  (g : groups) (k : list ascii -> groups -> option A) (a : A) :
  (forall k', k' rest g = Some a -> rmatch r (t ++ rest) g k' = Some a) ->
  k rest ((name, t) :: g) = Some a ->
  rmatch (Group name r) (t ++ rest) g k = Some a.
Proof.
  intros Hr Hk. cbn [rmatch]. apply Hr. now rewrite firstn_matched.
Qed.

Lemma twelve_step {A} (n : nat) (rest : list ascii) (g : groups)
  (k : list ascii -> groups -> option A) (a : A) :
  1 <= n <= 12 -> k rest g = Some a ->
  rmatch re_twelve (two_digit n ++ rest) g k = Some a.
Proof.
  intros Hn Hk. by_cases n ltac:(cbn; rewrite Hk; reflexivity).
Qed.

Lemma day_step {A} (n : nat) (rest : list ascii) (g : groups)
  (k : list ascii -> groups -> option A) (a : A) :
  1 <= n <= 31 -> k rest g = Some a ->
  rmatch re_day (two_digit n ++ rest) g k = Some a.
Proof.
  intros Hn Hk. by_cases n ltac:(cbn; rewrite Hk; reflexivity).
Qed.

Lemma minute_step {A} (n : nat) (rest : list ascii) (g : groups)
  (k : list ascii -> groups -> option A) (a : A) :
  n <= 59 -> k rest g = Some a ->
  rmatch re_minute (two_digit n ++ rest) g k = Some a.
Proof.
  intros Hn Hk. by_cases n ltac:(cbn; rewrite Hk; reflexivity).
Qed.

Lemma year2_step {A} (n : nat) (rest : list ascii) (g : groups)
  (k : list ascii -> groups -> option A) (a : A) :
  n <= 99 -> k rest g = Some a ->
  rmatch re_year2 (two_digit n ++ rest) g k = Some a.
Proof.
  intros Hn Hk. by_cases n ltac:(cbn; rewrite Hk; reflexivity).
Qed.

Lemma ampm_step {A} (pm : bool) (g : groups)
  (k : list ascii -> groups -> option A) (a : A) :
  k [] g = Some a ->
  rmatch re_ampm ((if pm then chars "PM" else chars "AM") ++ []) g k = Some a.
Proof. intro Hk. destruct pm; cbn; rewrite Hk; reflexivity. Qed.

Lemma blank_step {A} (c : ascii) (rest : list ascii) (g : groups)
  (k : list ascii -> groups -> option A) :
  in_class blank c = false ->
  rmatch (Many1 blank) (" "%char :: c :: rest) g k = k (c :: rest) g.
Proof.
  intro Hc. cbn [rmatch many].
  change (in_class blank " ") with true. cbv iota. now rewrite Hc.
Qed.

Lemma hour_round_trip (h : nat) :
  h <= 23 ->
  1 <= hour12 h <= 12
  /\ hour24 (hour12 h) (if h <? 12 then chars "AM" else chars "PM") = h.
Proof.
  intro Hh. by_cases h ltac:(vm_compute; split; [lia | reflexivity]).
Qed.

Lemma century_round_trip (y : nat) :
  1969 <= y <= 2068 -> y mod 100 <= 99 /\ century (y mod 100) = y.
Proof.
  intro Hy.
  pose proof (Nat.div_mod_eq y 100) as Hdm.
  pose proof (Nat.mod_upper_bound y 100 ltac:(lia)) as Hub.
  split; [lia | ].
  unfold century. destruct (Nat.leb_spec (y mod 100) 68); lia.
Qed.

Lemma rmatch_cat {A} (r1 r2 : regex) (s : list ascii) (g : groups)
  (k : list ascii -> groups -> option A) :
  rmatch (Cat r1 r2) s g k = rmatch r1 s g (fun s' g' => rmatch r2 s' g' k).
Proof. reflexivity. Qed.

Lemma separator_step {A} (c : ascii) (rest : list ascii) (g : groups)
  (k : list ascii -> groups -> option A) :
  same_char c c = true ->
  rmatch (Chr c) (c :: rest) g k = k rest g.
Proof. intro Hc. cbn [rmatch]. now rewrite Hc. Qed.

(** The matcher accepts a rendered stamp whole and hands over its
    six fields. *)
Lemma rendered_stamp_matches (mo d y h mi : nat) (pm : bool) :
  1 <= mo <= 12 -> 1 <= d <= 31 -> y <= 99 -> 1 <= h <= 12 -> mi <= 59 ->
  re_match log_regex
    (two_digit mo ++ "/"%char :: two_digit d ++ "/"%char
       :: two_digit y ++ " "%char :: two_digit h ++ ":"%char
       :: two_digit mi ++ " "%char
       :: (if pm then chars "PM" else chars "AM") ++ [])%list
  = Some ([], log_groups (two_digit mo) (two_digit d) (two_digit y)
                         (two_digit h) (two_digit mi)
                         (if pm then chars "PM" else chars "AM")).
Proof.
  intros Hmo Hd Hy Hh Hmi.
  unfold re_match, log_regex.
  rewrite rmatch_cat. apply group_step; [intros; now apply twelve_step | ].
  rewrite rmatch_cat, separator_step by reflexivity.
  rewrite rmatch_cat. apply group_step; [intros; now apply day_step | ].
  rewrite rmatch_cat, separator_step by reflexivity.
  rewrite rmatch_cat. apply group_step; [intros; now apply year2_step | ].
  rewrite rmatch_cat.
  destruct (two_digit_not_blank h
              (":"%char :: two_digit mi ++ " "%char
                 :: (if pm then chars "PM" else chars "AM") ++ [])%list
              ltac:(lia)) as (c & rest' & Ec & Hc).
  rewrite Ec, (blank_step c rest' _ _ Hc), <- Ec.
  rewrite rmatch_cat. apply group_step; [intros; now apply twelve_step | ].
  rewrite rmatch_cat, separator_step by reflexivity.
  rewrite rmatch_cat. apply group_step; [intros; now apply minute_step | ].
  rewrite rmatch_cat.
  assert (Hp : exists c rest',
             ((if pm then chars "PM" else chars "AM") ++ [])%list = c :: rest'
             /\ in_class blank c = false)
    by (destruct pm; eexists; eexists; split; reflexivity).
  destruct Hp as (c' & rest'' & Ec' & Hc').
  rewrite Ec', (blank_step c' rest'' _ _ Hc'), <- Ec'.
  rewrite rmatch_cat. apply group_step; [intros; now apply ampm_step | ].
  reflexivity.
Qed.

Lemma chars_of_list (l : list ascii) : chars (string_of_list_ascii l) = l.
Proof. apply list_ascii_of_string_of_list_ascii. Qed.

(** X13: round trip.  An instant rendered in the log format, zero
    padded with AM or PM, parses back to itself, for every minute of
    every existing day from 1969 to 2068. *)
Theorem render_then_parse (t : datetime) :
  valid_stamp t -> strptime (render_stamp t) log_format = inr t.
Proof.
  intros (Hy & Hmo & Hd & Hh & Hmi & Hs).
  unfold strptime. rewrite pattern_log_format.
  unfold render_stamp. rewrite chars_of_list.
  destruct (century_round_trip (year t) Hy) as [Hy2 Hcent].
  destruct (hour_round_trip (hour t) Hh) as [Hh12 Hh24].
  assert (Hd31 : 1 <= day t <= 31).
  { split; [lia | ]. destruct Hd as [_ Hd].
    unfold days_in_month in Hd.
    destruct (month t) as [ | [ | [ | [ | [ | [ | [ | [ | [ | [ | [ | [ | ]]]]]]]]]]]];
      try destruct (is_leap (year t)); lia. }
  pose proof (rendered_stamp_matches (month t) (day t) (year t mod 100)
                (hour12 (hour t)) (minute t) (negb (hour t <? 12))
                Hmo Hd31 Hy2 Hh12 Hmi) as Hm.
  assert (Eap : (if negb (hour t <? 12) then chars "PM" else chars "AM")
                = (if hour t <? 12 then chars "AM" else chars "PM"))
    by (now destruct (hour t <? 12)).
  rewrite Eap, app_nil_r in Hm. rewrite Hm.
  rewrite from_log_groups.
  rewrite !int_two_digit by lia. cbn [option_map].
  rewrite Hcent, Hh24. unfold make_datetime.
  destruct Hmo as [Hmo1 Hmo2]. destruct Hd as [Hd1 Hd2].
  apply Nat.leb_le in Hmo1, Hmo2, Hd1, Hd2, Hh, Hmi.
  rewrite Hmo1, Hmo2, Hd1, Hd2, Hh, Hmi. cbn [andb].
  destruct t as [ty tmo td th tmi ts]. cbn [second] in Hs. subst ts.
  reflexivity.
Qed.

Lemma render_then_parse_witness :
  strptime (render_stamp {| year := 2000; month := 2; day := 29;
                            hour := 23; minute := 59; second := 0 |})
           log_format
  = inr {| year := 2000; month := 2; day := 29;
           hour := 23; minute := 59; second := 0 |}.
Proof.
  apply render_then_parse. unfold valid_stamp. cbn [year month day hour minute second].
  repeat split; try lia. vm_compute. lia.
Defined.

(** ** Waiting *)

(** The condition raises nothing but [NoSuchElementException]. *)
Lemma visibility_raises_only_missing (b : browser) (css : selector)
  (now : nat) (ex : exn) :
  visibility_of_element_located b css now = inl ex ->
  ex = NoSuchElementException.
Proof.
  unfold visibility_of_element_located, first_or_raise.
  destruct (document_find_elements (page_at b now) css); [ | discriminate].
  now intros [= <-].
Qed.

Lemma until_loop_finds (b : browser) (css : selector)
  (end_time delta t0 : nat) :
  lookup_within b delta ->
  visible_from b css t0 ->
  t0 + POLL_FREQUENCY + delta <= end_time ->
  forall rounds now out,
    until_loop rounds b css end_time now = Some out ->
    exists e t, out = (inr e, t)
                /\ now <= t <= Nat.max now (t0 + POLL_FREQUENCY + delta) + delta.
Proof.
  intros Hcost Hvis Hearly.
  induction rounds as [ | rounds IH]; intros now out H; [discriminate | ].
  cbn [until_loop] in H.
  pose proof (Hcost now) as Hc.
  assert (Hagain :
            now < t0 ->
            (if end_time <? now + lookup_cost b now + POLL_FREQUENCY
             then Some (@inl exn element TimeoutException,
                        now + lookup_cost b now + POLL_FREQUENCY)
             else until_loop rounds b css end_time
                    (now + lookup_cost b now + POLL_FREQUENCY)) = Some out ->
            exists e t, out = (inr e, t)
                        /\ now <= t
                           <= Nat.max now (t0 + POLL_FREQUENCY + delta) + delta).
  { intros Hnow.
    destruct (Nat.ltb_spec end_time (now + lookup_cost b now + POLL_FREQUENCY))
      as [Hlt | Hle]; intro Ho; [lia | ].
    apply IH in Ho as (e & t & -> & Ht). exists e, t. split; [reflexivity | lia]. }
  assert (Hbefore :
            (forall e, visibility_of_element_located b css now <> inr (Some e)) ->
            now < t0).
  { intro Hno. destruct (Nat.lt_ge_cases now t0) as [Hlt | Hge]; [exact Hlt | ].
    destruct (Hvis now Hge) as (e & He). now elim (Hno e). }
  destruct (visibility_of_element_located b css now) as [ex | [e | ]] eqn:E.
  - rewrite (visibility_raises_only_missing b css now ex E) in H.
    apply Hagain; [ | exact H]. apply Hbefore. discriminate.
  - injection H as <-. exists e, (now + lookup_cost b now).
    split; [reflexivity | lia].
  - apply Hagain; [ | exact H]. apply Hbefore. discriminate.
Qed.

(** X14: the wait succeeds when it can.  When every look from [t0] on
    finds a displayed match, a look takes at most [delta] milliseconds
    and [t0] lies at least one polling period and one look before the
    end of the ten seconds, [get_element] returns an element rather
    than a timeout, no later than one polling period and two looks
    after [t0] (or one look after the start, when that is later). *)
Theorem get_element_finds_visible (b : browser) (css : selector)
  (start delta t0 : nat) :
  lookup_within b delta ->
  visible_from b css t0 ->
  t0 + POLL_FREQUENCY + delta <= start + 10 * 1000 ->
  exists e t,
    get_element b css start = Some (inr e, t)
    /\ start <= t <= Nat.max start (t0 + POLL_FREQUENCY + delta) + delta.
Proof.
  intros Hcost Hvis Hearly.
  unfold get_element, until.
  destruct (until_rounds_suffice 10 start) as [Hr Hd].
  pose proof (until_loop_total b css (start + 10 * 1000) _ start Hr Hd) as Htotal.
  destruct (until_loop (10 * 1000 / POLL_FREQUENCY + 2) b css
              (start + 10 * 1000) start) as [out | ] eqn:E;
    [ | now elim Htotal].
  destruct (until_loop_finds b css (start + 10 * 1000) delta t0
              Hcost Hvis Hearly _ start out E) as (e & t & -> & Ht).
  exists e, t. split; [reflexivity | exact Ht].
Qed.

Lemma get_element_finds_visible_witness :
  exists e t,
    get_element late_browser css_anchor 0 = Some (inr e, t)
    /\ 0 <= t <= Nat.max 0 (3000 + POLL_FREQUENCY + 20) + 20.
Proof.
  apply (get_element_finds_visible late_browser css_anchor 0 20 3000).
  - intro t. cbn. lia.
  - intros t Ht. exists sample_anchor.
    unfold visibility_of_element_located, late_browser.
    cbn [page_at displayed_at].
    apply Nat.leb_le in Ht. rewrite Ht. reflexivity.
  - unfold POLL_FREQUENCY. lia.
Defined.
